(** * Value codec and routing-key composer of the CQL driver

    A shallow embedding of [lib/encoder.js]: [encode], [decode],
    [guessDataType] and [setRoutingKey], together with the parts of the
    JavaScript runtime and of the Node [Buffer] API (0.12 semantics: numeric
    writers coerce their argument with unary plus and range-check it) that the
    encoder calls. *)

From Stdlib Require Import ZArith List Bool String Ascii Lia DecimalString.
From Stdlib Require Import Floats.SpecFloat.
Import ListNotations.
Local Open Scope Z_scope.
Set Warnings "-register-all".

(** ** Errors and results *)

Inductive exn : Type :=
| TypeError (msg : string)
| RangeError (msg : string)
| Error (msg : string).

(** The outcome of a call: a returned value, a thrown exception, or the
    exhaustion of the recursion budget of the model. *)
Inductive result (A : Type) : Type :=
| Ok (a : A)
| Throw (e : exn)
| NoFuel.
Arguments Ok {A} a.
Arguments Throw {A} e.
Arguments NoFuel {A}.

Definition bind {A B : Type} (r : result A) (k : A -> result B) : result B :=
  match r with
  | Ok a => k a
  | Throw e => Throw e
  | NoFuel => NoFuel
  end.

Notation "'do' x <- r ; k" := (bind r (fun x => k))
  (at level 10, x name, r at level 100, k at level 200).

Fixpoint mapM {A B : Type} (f : A -> result B) (l : list A) : result (list B) :=
  match l with
  | [] => Ok []
  | a :: l' => do b <- f a; do bs <- mapM f l'; Ok (b :: bs)
  end.

Definition isTypeError (e : exn) : bool :=
  match e with TypeError _ => true | _ => false end.

(** ** Buffers and strings *)

(** A [Buffer] is its sequence of octets; a JavaScript string is its sequence
    of UTF-16 code units. *)
Definition buffer := list Z.
Definition jsstring := list Z.

Definition str (s : string) : jsstring :=
  map (fun c => Z.of_N (N_of_ascii c)) (list_ascii_of_string s).

Definition len {A : Type} (l : list A) : Z := Z.of_nat (List.length l).

Definition jsstring_eqb (a b : jsstring) : bool :=
  if list_eq_dec Z.eq_dec a b then true else false.

(** Big-endian layout of the low [n] octets of [z]. *)
Fixpoint be_split (n : nat) (z : Z) : buffer :=
  match n with
  | O => []
  | S k => (z / 256 ^ Z.of_nat k) mod 256 :: be_split k z
  end.

Definition be_combine (b : buffer) : Z :=
  fold_left (fun acc x => acc * 256 + x) b 0.

(** Two's-complement reading of a big-endian buffer. *)
Definition be_signed (b : buffer) : Z :=
  let u := be_combine b in
  let w := 256 ^ len b in
  if 2 * u <? w then u else u - w.

Definition slice (b : buffer) (from to : Z) : buffer :=
  firstn (Z.to_nat (to - from)) (skipn (Z.to_nat from) b).

Definition out_of_bounds : exn := TypeError "value is out of bounds".
Definition index_out_of_range : exn := RangeError "index out of range".

(** [buf.writeUInt16BE(value, 0)] on a fresh two-octet buffer. *)
Definition writeUInt16BE (n : Z) : result buffer :=
  if (n >? 65535) || (n <? 0) then Throw out_of_bounds else Ok (be_split 2 n).

(** [buf.writeInt16BE(value, index)]: the octets written at [index]. *)
Definition writeInt16BE (n : Z) : result buffer :=
  if (n >? 32767) || (n <? -32768) then Throw out_of_bounds
  else Ok (be_split 2 (n mod 65536)).

Definition readUInt16BE (b : buffer) (offset : Z) : result Z :=
  if offset + 2 >? len b then Throw index_out_of_range
  else Ok (be_combine (slice b offset (offset + 2))).

(** [Buffer.concat(parts)] for a list of two or more parts: every part is
    asked for its [length], which fails on [null]. *)
Definition null_length : exn := TypeError "Cannot read property 'length' of null".

Fixpoint Buffer_concat (parts : list (option buffer)) : result buffer :=
  match parts with
  | [] => Ok []
  | None :: _ => Throw null_length
  | Some b :: rest => do r <- Buffer_concat rest; Ok (b ++ r)
  end.

(** ** Numbers *)

(** A JavaScript number is an IEEE 754 binary64 value. *)
Definition number := spec_float.

Definition prec64 : Z := 53.
Definition emax64 : Z := 1024.
Definition prec32 : Z := 24.
Definition emax32 : Z := 128.

Definition number_of_Z (z : Z) : number := binary_normalize prec64 emax64 z 0 false.

Definition valid_number (n : number) : bool := valid_binary prec64 emax64 n.

Definition number_isNaN (n : number) : bool :=
  match n with S754_nan => true | _ => false end.

(** [ToInteger]: truncation toward zero; [None] on NaN and the infinities. *)
Definition number_trunc (n : number) : option Z :=
  match n with
  | S754_zero _ => Some 0
  | S754_finite s m e =>
      Some (cond_Zopp s (if 0 <=? e then Zpos m * 2 ^ e else Zpos m / 2 ^ (- e)))
  | _ => None
  end.

(** [n > z] and [n < z] for an integer [z], exactly. *)
Definition number_gtb_Z (n : number) (z : Z) : bool :=
  match n with
  | S754_zero _ => 0 >? z
  | S754_infinity s => negb s
  | S754_nan => false
  | S754_finite s m e =>
      if 0 <=? e then cond_Zopp s (Zpos m) * 2 ^ e >? z
      else cond_Zopp s (Zpos m) >? z * 2 ^ (- e)
  end.

Definition number_ltb_Z (n : number) (z : Z) : bool :=
  match n with
  | S754_zero _ => 0 <? z
  | S754_infinity s => s
  | S754_nan => false
  | S754_finite s m e =>
      if 0 <=? e then cond_Zopp s (Zpos m) * 2 ^ e <? z
      else cond_Zopp s (Zpos m) <? z * 2 ^ (- e)
  end.

(** [ToUint32], as performed by the shifts [value >>> 24] ... of the writer. *)
Definition ToUint32 (n : number) : Z :=
  match number_trunc n with
  | Some z => z mod 2 ^ 32
  | None => 0
  end.

(** [buf.writeInt32BE(value, 0)] on a fresh four-octet buffer, [value] already
    coerced to a number. *)
Definition writeInt32BE (n : number) : result buffer :=
  if number_gtb_Z n 2147483647 || number_ltb_Z n (-2147483648)
  then Throw out_of_bounds
  else Ok (be_split 4 (ToUint32 n)).

Definition readInt32BE (b : buffer) : result number :=
  if 4 >? len b then Throw index_out_of_range
  else Ok (number_of_Z (be_signed (slice b 0 4))).

Definition readUInt8 (b : buffer) : result Z :=
  match b with
  | [] => Throw index_out_of_range
  | x :: _ => Ok x
  end.

(** *** IEEE 754 interchange layouts

    [float_bits prec emax x] is the bit pattern of [x] in the binary format
    with [prec] significand bits and infinity exponent [emax]: sign, biased
    exponent, trailing significand.  NaN is written in its quiet form. *)
Section Layout.
Variables prec emax : Z.

Definition sign_bit (s : bool) : Z := if s then 2 * emax * 2 ^ (prec - 1) else 0.

Definition float_bits (x : spec_float) : Z :=
  match x with
  | S754_zero s => sign_bit s
  | S754_infinity s => sign_bit s + (2 * emax - 1) * 2 ^ (prec - 1)
  | S754_nan => (2 * emax - 1) * 2 ^ (prec - 1) + 2 ^ (prec - 2)
  | S754_finite s m e =>
      if Zpos m <? 2 ^ (prec - 1) then sign_bit s + Zpos m
      else sign_bit s + (e + emax + prec - 2) * 2 ^ (prec - 1)
           + (Zpos m - 2 ^ (prec - 1))
  end.

Definition bits_float (b : Z) : spec_float :=
  let s := (b / (2 * emax * 2 ^ (prec - 1))) mod 2 =? 1 in
  let be := (b / 2 ^ (prec - 1)) mod (2 * emax) in
  let mant := b mod 2 ^ (prec - 1) in
  if be =? 0 then
    match mant with
    | Zpos m => S754_finite s m (3 - emax - prec)
    | _ => S754_zero s
    end
  else if be =? 2 * emax - 1 then
    if mant =? 0 then S754_infinity s else S754_nan
  else
    match mant + 2 ^ (prec - 1) with
    | Zpos m => S754_finite s m (be - emax - prec + 2)
    | _ => S754_nan
    end.

(** Rounding (to nearest, ties to even) of a finite value into the format. *)
Definition round_to (x : spec_float) : spec_float :=
  match x with
  | S754_finite s m e => binary_normalize prec emax (cond_Zopp s (Zpos m)) e false
  | _ => x
  end.
End Layout.

Definition writeDoubleBE (n : number) : buffer :=
  be_split 8 (float_bits prec64 emax64 n).

Definition readDoubleBE (b : buffer) : result number :=
  if 8 >? len b then Throw index_out_of_range
  else Ok (bits_float prec64 emax64 (be_combine (slice b 0 8))).

Definition writeFloatBE (n : number) : buffer :=
  be_split 4 (float_bits prec32 emax32 (round_to prec32 emax32 n)).

Definition readFloatBE (b : buffer) : result number :=
  if 4 >? len b then Throw index_out_of_range
  else Ok (round_to prec64 emax64 (bits_float prec32 emax32 (be_combine (slice b 0 4)))).

(** *** 64-bit and arbitrary-precision integers ([types.Long], [types.Integer]) *)

(** Modelled from the spec: the module [lib/types] is not part of the sources
    at hand; a [Long] is a 64-bit two's-complement integer laid out as 8
    big-endian octets, built from a number by truncation (NaN and the
    infinities give zero, values beyond the range saturate). *)
Definition Long_min : Z := - 2 ^ 63.
Definition Long_max : Z := 2 ^ 63 - 1.

Definition Long_toBuffer (z : Z) : buffer := be_split 8 (z mod 2 ^ 64).

Definition Long_fromBuffer (b : buffer) : result Z :=
  if 8 >? len b then Throw index_out_of_range
  else Ok (be_signed (slice b 0 8)).

Definition Long_fromNumber (n : number) : Z :=
  match number_trunc n with
  | Some z => Z.max Long_min (Z.min Long_max z)
  | None => 0
  end.

Definition Long_toNumber (z : Z) : number := number_of_Z z.

(** Modelled from the spec: an [Integer] is an arbitrary-precision integer
    laid out as the shortest big-endian two's-complement octet string that
    holds it. *)
Definition Integer_size (z : Z) : nat :=
  Z.to_nat ((Z.log2 (if z <? 0 then - z - 1 else z) + 1) / 8 + 1).

Definition Integer_toBuffer (z : Z) : buffer :=
  be_split (Integer_size z) (z mod 256 ^ Z.of_nat (Integer_size z)).

Definition Integer_fromBuffer (b : buffer) : Z := be_signed b.

Definition Integer_fromNumber (n : number) : Z :=
  match number_trunc n with
  | Some z => z
  | None => 0
  end.

(** *** UUID text ([node-uuid]) *)

Definition hex_value (c : Z) : option Z :=
  if (48 <=? c) && (c <=? 57) then Some (c - 48)
  else if (97 <=? c) && (c <=? 102) then Some (c - 87)
  else if (65 <=? c) && (c <=? 70) then Some (c - 55)
  else None.

Definition hex_digit (d : Z) : Z := if d <? 10 then 48 + d else 87 + d.

(** The successive matches of [/[0-9a-f]{2}/g] in the lower-cased string. *)
Fixpoint hex_pairs (s : jsstring) : list Z :=
  match s with
  | a :: tl =>
      match tl with
      | b :: rest =>
          match hex_value a, hex_value b with
          | Some x, Some y => 16 * x + y :: hex_pairs rest
          | _, _ => hex_pairs tl
          end
      | [] => []
      end
  | [] => []
  end.

(** [uuid.parse(s, new Buffer(16))]: the first sixteen octets named by the
    string, the missing ones zero. *)
Definition uuid_parse (s : jsstring) : buffer :=
  let bs := firstn 16 (hex_pairs s) in
  bs ++ repeat 0 (16 - List.length bs).

Definition byteToHex (b : option Z) : jsstring :=
  match b with
  | Some x => [hex_digit (x / 16); hex_digit (x mod 16)]
  | None => str "undefined"
  end.

Definition dash : jsstring := [45].

(** [uuid.unparse(buf)]: 8-4-4-4-12 lower-case hexadecimal groups. *)
Definition uuid_unparse (b : buffer) : jsstring :=
  let h i := byteToHex (nth_error b i) in
  h 0%nat ++ h 1%nat ++ h 2%nat ++ h 3%nat ++ dash
  ++ h 4%nat ++ h 5%nat ++ dash
  ++ h 6%nat ++ h 7%nat ++ dash
  ++ h 8%nat ++ h 9%nat ++ dash
  ++ h 10%nat ++ h 11%nat ++ h 12%nat ++ h 13%nat ++ h 14%nat ++ h 15%nat.

(** [/^[0-9a-f]{8}-[0-9a-f]{4}-[0-9a-f]{4}-[0-9a-f]{4}-[0-9a-f]{12}$/i] *)
Definition is_hex (c : Z) : bool :=
  match hex_value c with Some _ => true | None => false end.

Fixpoint match_hex (n : nat) (s : jsstring) : option jsstring :=
  match n with
  | O => Some s
  | S k =>
      match s with
      | c :: rest => if is_hex c then match_hex k rest else None
      | [] => None
      end
  end.

Definition match_dash (s : jsstring) : option jsstring :=
  match s with
  | c :: rest => if c =? 45 then Some rest else None
  | [] => None
  end.

Definition obind {A B : Type} (o : option A) (k : A -> option B) : option B :=
  match o with Some a => k a | None => None end.

Definition uuid_regex_test (s : jsstring) : bool :=
  match
    obind (match_hex 8 s) (fun s1 => obind (match_dash s1) (fun s2 =>
    obind (match_hex 4 s2) (fun s3 => obind (match_dash s3) (fun s4 =>
    obind (match_hex 4 s4) (fun s5 => obind (match_dash s5) (fun s6 =>
    obind (match_hex 4 s6) (fun s7 => obind (match_dash s7) (fun s8 =>
    match_hex 12 s8))))))))
  with
  | Some [] => true
  | _ => false
  end.

(** *** String encodings of [Buffer] *)

Definition is_high_surrogate (c : Z) : bool := (55296 <=? c) && (c <=? 56319).
Definition is_low_surrogate (c : Z) : bool := (56320 <=? c) && (c <=? 57343).
Definition is_continuation (b : Z) : bool := (128 <=? b) && (b <=? 191).

Definition replacement : Z := 65533.
Definition replacement_utf8 : buffer := [239; 191; 189].

Definition utf8_2 (c : Z) : buffer := [192 + c / 64; 128 + c mod 64].
Definition utf8_3 (c : Z) : buffer :=
  [224 + c / 4096; 128 + (c / 64) mod 64; 128 + c mod 64].
Definition utf8_4 (c : Z) : buffer :=
  [240 + c / 262144; 128 + (c / 4096) mod 64; 128 + (c / 64) mod 64; 128 + c mod 64].

(** [new Buffer(s, 'utf8')]: a surrogate pair is one code point, a lone
    surrogate is written as U+FFFD. *)
Fixpoint utf8_encode (s : jsstring) : buffer :=
  match s with
  | [] => []
  | c :: tl =>
      if c <? 128 then c :: utf8_encode tl
      else if c <? 2048 then utf8_2 c ++ utf8_encode tl
      else if is_high_surrogate c then
        match tl with
        | d :: rest =>
            if is_low_surrogate d
            then utf8_4 (65536 + (c - 55296) * 1024 + (d - 56320)) ++ utf8_encode rest
            else replacement_utf8 ++ utf8_encode tl
        | [] => replacement_utf8
        end
      else if is_low_surrogate c then replacement_utf8 ++ utf8_encode tl
      else utf8_3 c ++ utf8_encode tl
  end.

Definition code_units (cp : Z) : jsstring :=
  if cp <? 65536 then [cp]
  else [55296 + (cp - 65536) / 1024; 56320 + (cp - 65536) mod 1024].

(** [buf.toString('utf8')].  Well-formed sequences are decoded exactly; an
    octet that does not start one is replaced by U+FFFD and decoding resumes
    at the next octet. *)
Fixpoint utf8_decode (b : buffer) : jsstring :=
  match b with
  | [] => []
  | b0 :: t0 =>
      if b0 <? 128 then b0 :: utf8_decode t0
      else
        match t0 with
        | [] => [replacement]
        | b1 :: t1 =>
            if (194 <=? b0) && (b0 <=? 223) && is_continuation b1
            then (b0 - 192) * 64 + (b1 - 128) :: utf8_decode t1
            else
              match t1 with
              | [] => replacement :: utf8_decode t0
              | b2 :: t2 =>
                  let cp3 := (b0 - 224) * 4096 + (b1 - 128) * 64 + (b2 - 128) in
                  if (224 <=? b0) && (b0 <=? 239) && is_continuation b1
                     && is_continuation b2 && (2048 <=? cp3)
                     && negb (is_high_surrogate cp3 || is_low_surrogate cp3)
                  then cp3 :: utf8_decode t2
                  else
                    match t2 with
                    | [] => replacement :: utf8_decode t0
                    | b3 :: t3 =>
                        let cp4 := (b0 - 240) * 262144 + (b1 - 128) * 4096
                                   + (b2 - 128) * 64 + (b3 - 128) in
                        if (240 <=? b0) && (b0 <=? 244) && is_continuation b1
                           && is_continuation b2 && is_continuation b3
                           && (65536 <=? cp4) && (cp4 <=? 1114111)
                        then code_units cp4 ++ utf8_decode t3
                        else replacement :: utf8_decode t0
                    end
              end
        end
  end.

(** [new Buffer(s, 'ascii')] keeps the low octet of every code unit;
    [buf.toString('ascii')] clears the high bit of every octet. *)
Definition ascii_encode (s : jsstring) : buffer := map (fun c => c mod 256) s.
Definition ascii_decode (b : buffer) : jsstring := map (fun x => x mod 128) b.

(** ** Type catalog *)

(** Modelled from the spec: the table [types.dataTypes] is not part of the
    sources at hand; the canonical codes are those of the wire protocol, in
    the order in which the specification lists the names. *)
Module dataTypes.
Definition custom : Z := 0.
Definition ascii : Z := 1.
Definition bigint : Z := 2.
Definition blob : Z := 3.
Definition boolean : Z := 4.
Definition counter : Z := 5.
Definition decimal : Z := 6.
Definition double : Z := 7.
Definition float : Z := 8.
Definition int : Z := 9.
Definition text : Z := 10.
Definition timestamp : Z := 11.
Definition uuid : Z := 12.
Definition varchar : Z := 13.
Definition varint : Z := 14.
Definition timeuuid : Z := 15.
Definition inet : Z := 16.
Definition list : Z := 32.
Definition map : Z := 33.
Definition set : Z := 34.
End dataTypes.

Inductive dataType : Type :=
| DCustom | DAscii | DBigint | DBlob | DBoolean | DCounter | DDecimal | DDouble | DFloat
| DInt | DText | DTimestamp | DUuid | DVarchar | DVarint | DTimeuuid | DInet
| DList | DMap | DSet.

Definition code_of (t : dataType) : Z :=
  match t with
  | DCustom => dataTypes.custom | DAscii => dataTypes.ascii
  | DBigint => dataTypes.bigint | DBlob => dataTypes.blob
  | DBoolean => dataTypes.boolean | DCounter => dataTypes.counter
  | DDecimal => dataTypes.decimal | DDouble => dataTypes.double
  | DFloat => dataTypes.float | DInt => dataTypes.int
  | DText => dataTypes.text | DTimestamp => dataTypes.timestamp
  | DUuid => dataTypes.uuid | DVarchar => dataTypes.varchar
  | DVarint => dataTypes.varint | DTimeuuid => dataTypes.timeuuid
  | DInet => dataTypes.inet | DList => dataTypes.list
  | DMap => dataTypes.map | DSet => dataTypes.set
  end.

Definition all_dataTypes : list dataType :=
  [DCustom; DAscii; DBigint; DBlob; DBoolean; DCounter; DDecimal; DDouble; DFloat; DInt;
   DText; DTimestamp; DUuid; DVarchar; DVarint; DTimeuuid; DInet; DList; DMap; DSet].

(** The [case] label selected by a numeric code, if any. *)
Definition classify (code : Z) : option dataType :=
  find (fun t => code_of t =? code) all_dataTypes.

Definition is_scalar (t : dataType) : bool :=
  match t with DList | DMap | DSet => false | _ => true end.

(** ** Host values and type hints *)

Inductive value : Type :=
| VUndefined
| VNull
| VBool (b : bool)
| VNumber (n : number)
| VString (s : jsstring)
| VBuffer (b : buffer)
| VDate (t : number)
| VLong (z : Z)
| VInteger (z : Z)
| VArray (items : list value)
| VObject (props : list (jsstring * value)).

(** A type hint as [encode] receives it: nothing, a numeric code, a type
    name, or an object whose [type] field may or may not hold a number. *)
Inductive hint : Type :=
| HAbsent
| HCode (code : Z)
| HName (name : jsstring)
| HInfo (type : option Z) (subtypes : option (list hint)).

Record typeInfo : Type := mkTypeInfo {
  type : option Z;
  subtypes : option (list hint)
}.

(** [if (typeInfo)]: zero and the empty string are as good as no hint. *)
Definition hint_truthy (h : hint) : bool :=
  match h with
  | HAbsent => false
  | HCode c => negb (c =? 0)
  | HName s => match s with [] => false | _ => true end
  | HInfo _ _ => true
  end.

(** The primitives of the JavaScript runtime and of [lib/types] that the
    encoder calls and that are left abstract. *)
Record runtime : Type := mkRuntime {
  getByName : jsstring -> result typeInfo;
  StringToNumber : jsstring -> number;
  ToString : value -> jsstring;
  Date_parse : jsstring -> number;
  Long_fromString : jsstring -> result Z;
  Integer_fromString : jsstring -> result Z;
  hostProperties : value -> list (jsstring * value)
}.

Definition number_is_zero (n : number) : bool :=
  match n with S754_zero _ => true | _ => false end.

Definition ToBoolean (v : value) : bool :=
  match v with
  | VUndefined | VNull => false
  | VBool b => b
  | VNumber n => negb (number_is_zero n || number_isNaN n)
  | VString s => match s with [] => false | _ => true end
  | _ => true
  end.

(** [new Date(n)]: the time value is [n] truncated, or NaN beyond 8.64e15. *)
Definition TimeClip (n : number) : number :=
  match number_trunc n with
  | Some z => if Z.abs z <=? 8640000000000000 then number_of_Z z else S754_nan
  | None => S754_nan
  end.

(** What [getLengthBuffer] is handed: the octets of an encoded item (or
    [null]), the array being encoded, or a property count. *)
Inductive lengthArg : Type :=
| OfBytes (b : option buffer)
| OfArray (items : list value)
| OfCount (n : Z).

(** [writeUInt16BE] on an argument that unary plus had to coerce. *)
Definition writeUInt16BE_number (n : number) : result buffer :=
  if number_gtb_Z n 65535 || number_ltb_Z n 0 then Throw out_of_bounds
  else Ok (be_split 2 (ToUint32 n mod 65536)).

Definition index_key (i : nat) : jsstring :=
  str (NilEmpty.string_of_uint (Nat.to_uint i)).

Fixpoint indexed {A : Type} (mk : A -> value) (i : nat) (l : list A)
  : list (jsstring * value) :=
  match l with
  | [] => []
  | a :: l' => (index_key i, mk a) :: indexed mk (S i) l'
  end.

Section Runtime.
Variable rt : runtime.

Definition ToNumber (v : value) : number :=
  match v with
  | VUndefined => S754_nan
  | VNull => S754_zero false
  | VBool b => if b then number_of_Z 1 else S754_zero false
  | VNumber n => n
  | VString s => StringToNumber rt s
  | VDate t => t
  | _ => StringToNumber rt (ToString rt v)
  end.

Definition isNaN (v : value) : bool := number_isNaN (ToNumber v).

(** The properties of its own that [for (key in value)] visits, in the
    order of the visit.  The loop also visits what the value inherits, a
    method assigned to a prototype for instance: [hasOwnProperty] answers
    [false] for those and [encodeMap] passes them over, so that they are
    left out here. *)
Definition ownProperties (v : value) : list (jsstring * value) :=
  match v with
  | VObject props => props
  | VArray items => indexed (fun x => x) 0 items
  | VString s => indexed (fun c => VString [c]) 0 s
  | VUndefined | VNull | VBool _ | VNumber _ | VDate _ => []
  | _ => hostProperties rt v
  end.

Definition has_key (key : jsstring) (props : list (jsstring * value)) : bool :=
  existsb (fun p => jsstring_eqb (fst p) key) props.

Definition not_a_function : exn :=
  TypeError "value.hasOwnProperty is not a function".

(** [value.hasOwnProperty(key)].  The method is looked up on the value like
    any other property: a property of the value's own with that name hides
    the inherited method, and no value of this model can be called. *)
Definition hasOwnProperty (v : value) (key : jsstring) : result bool :=
  if has_key (str "hasOwnProperty") (ownProperties v)
  then Throw not_a_function
  else Ok (has_key key (ownProperties v)).

(** *** Type inference *)

Definition guessDataType (v : value) : option typeInfo :=
  let found t := Some (mkTypeInfo (Some t) None) in
  match v with
  | VNumber _ => found dataTypes.double
  | VDate _ => found dataTypes.timestamp
  | VLong _ => found dataTypes.bigint
  | VInteger _ => found dataTypes.varint
  | VString s =>
      if uuid_regex_test s then found dataTypes.uuid else found dataTypes.text
  | VBuffer _ => found dataTypes.blob
  | VArray _ => found dataTypes.list
  | VBool _ => found dataTypes.boolean
  | _ => None
  end.

(** *** Scalar encoders *)

Definition expected (what : string) : exn := TypeError what.

Definition encodeInt (v : value) : result (option buffer) :=
  if isNaN v then Throw (expected "Expected Number, obtained")
  else do b <- writeInt32BE (ToNumber v); Ok (Some b).

Definition encodeFloat (v : value) : result (option buffer) :=
  match v with
  | VNumber n => Ok (Some (writeFloatBE n))
  | _ => Throw (expected "Expected Number, obtained")
  end.

Definition encodeDouble (v : value) : result (option buffer) :=
  match v with
  | VNumber n => Ok (Some (writeDoubleBE n))
  | _ => Throw (expected "Expected Number, obtained")
  end.

Definition encodeBigNumber (v : value) : result (option buffer) :=
  let v1 := match v with VNumber n => VLong (Long_fromNumber n) | _ => v end in
  do v2 <- match v1 with
           | VString s => do z <- Long_fromString rt s; Ok (VLong z)
           | _ => Ok v1
           end;
  match v2 with
  | VBuffer b => Ok (Some b)
  | VLong z => Ok (Some (Long_toBuffer z))
  | _ => Throw (expected "Not a valid bigint, expected Long/Number/String/Buffer, obtained")
  end.

Definition encodeTimestamp (v : value) : result (option buffer) :=
  let v1 := match v with
            | VString s => VDate (TimeClip (Date_parse rt s))
            | _ => v
            end in
  do v2 <- match v1 with
           | VDate t =>
               if number_isNaN t then Throw (expected "Invalid date:")
               else Ok (VNumber t)
           | _ => Ok v1
           end;
  encodeBigNumber v2.

Definition encodeUuid (v : value) : result (option buffer) :=
  let v1 := match v with VString s => VBuffer (uuid_parse s) | _ => v end in
  match v1 with
  | VBuffer b => Ok (Some b)
  | _ => Throw (expected "Only Buffer and string objects allowed for UUID values, obtained")
  end.

Definition encodeVarint (v : value) : result (option buffer) :=
  let v1 := match v with VNumber n => VInteger (Integer_fromNumber n) | _ => v end in
  do v2 <- match v1 with
           | VString s => do z <- Integer_fromString rt s; Ok (VInteger z)
           | _ => Ok v1
           end;
  match v2 with
  | VBuffer b => Ok (Some b)
  | VInteger z => Ok (Some (Integer_toBuffer z))
  | _ => Throw (expected "Not a valid varint, expected Integer/Number/String/Buffer, obtained")
  end.

Definition encodeString (v : value) (ascii : bool) : result (option buffer) :=
  match v with
  | VString s => Ok (Some (if ascii then ascii_encode s else utf8_encode s))
  | _ => Throw (expected "Not a valid text value, expected String obtained")
  end.

Definition encodeBlob (v : value) : result (option buffer) :=
  match v with
  | VBuffer b => Ok (Some b)
  | _ => Throw (expected "Not a valid blob, expected Buffer obtained")
  end.

Definition encodeBoolean (v : value) : result (option buffer) :=
  Ok (Some [if ToBoolean v then 1 else 0]).

(** *** Collections *)

Definition getLengthBuffer (a : lengthArg) : result buffer :=
  match a with
  | OfBytes None => writeUInt16BE 0
  | OfBytes (Some b) =>
      if len b =? 0 then writeUInt16BE_number (ToNumber (VBuffer b))
      else writeUInt16BE (len b)
  | OfArray items =>
      if len items =? 0 then writeUInt16BE_number (ToNumber (VArray items))
      else writeUInt16BE (len items)
  | OfCount n => if n =? 0 then writeUInt16BE 0 else writeUInt16BE n
  end.

Definition subtype_at (i : nat) (subs : option (list hint)) : hint :=
  match subs with
  | Some l => nth i l HAbsent
  | None => HAbsent
  end.

Section Collections.
(** The recursive call [encode(item, subtype)]. *)
Variable enc : value -> hint -> result (option buffer).

Fixpoint encodeItems (subtype : hint) (items : list value)
  : result (list (option buffer)) :=
  match items with
  | [] => Ok []
  | item :: rest =>
      do bytes <- enc item subtype;
      do lb <- getLengthBuffer (OfBytes bytes);
      do parts <- encodeItems subtype rest;
      Ok (Some lb :: bytes :: parts)
  end.

Definition encodeList (v : value) (subs : option (list hint))
  : result (option buffer) :=
  match v with
  | VArray items =>
      if len items =? 0 then Ok None
      else
        do lb <- getLengthBuffer (OfArray items);
        do parts <- encodeItems (subtype_at 0 subs) items;
        do b <- Buffer_concat (Some lb :: parts);
        Ok (Some b)
  | _ => Throw (expected "Not a valid list value, expected Array obtained")
  end.

Fixpoint encodeEntries (owner : value) (keySubtype valueSubtype : hint)
  (props : list (jsstring * value)) : result (list (option buffer) * Z) :=
  match props with
  | [] => Ok ([], 0)
  | (key, item) :: rest =>
      do own <- hasOwnProperty owner key;
      if own then
        do keyBuffer <- enc (VString key) keySubtype;
        do klb <- getLengthBuffer (OfBytes keyBuffer);
        do valueBuffer <- enc item valueSubtype;
        do vlb <- getLengthBuffer (OfBytes valueBuffer);
        do r <- encodeEntries owner keySubtype valueSubtype rest;
        Ok (Some klb :: keyBuffer :: Some vlb ::
              match valueBuffer with
              | Some _ => [valueBuffer]
              | None => []
              end ++ fst r,
            snd r + 1)
      else encodeEntries owner keySubtype valueSubtype rest
  end.

Definition encodeMap (v : value) (subs : option (list hint))
  : result (option buffer) :=
  do r <- encodeEntries v (subtype_at 0 subs) (subtype_at 1 subs) (ownProperties v);
  do count <- getLengthBuffer (OfCount (snd r));
  do b <- Buffer_concat (Some count :: fst r);
  Ok (Some b).
End Collections.

(** *** [encode] *)

(** The first half of [encode]: the hint made into a numeric code and its
    subtypes, or the type guessed from the value. *)
Definition resolve (v : value) (h : hint) : result (Z * option (list hint)) :=
  if hint_truthy h then
    do ti <- match h with
             | HCode c => Ok (mkTypeInfo (Some c) None)
             | HName s => getByName rt s
             | HInfo t st => Ok (mkTypeInfo t st)
             | HAbsent => Ok (mkTypeInfo None None)
             end;
    match type ti with
    | Some code => Ok (code, subtypes ti)
    | None =>
        Throw (TypeError "Type information not valid, only String and Number values are valid hints")
    end
  else
    match guessDataType v with
    | Some ti =>
        match type ti with
        | Some code => Ok (code, subtypes ti)
        | None => Throw (TypeError "Type not supported")
        end
    | None =>
        Throw (TypeError "Target data type could not be guessed, you must specify a hint for value:")
    end.

(** [fuel] bounds the depth of the nested calls; the outermost call never
    needs any. *)
Fixpoint encode (fuel : nat) (v : value) (h : hint) {struct fuel}
  : result (option buffer) :=
  match v with
  | VNull | VUndefined => Ok None
  | _ =>
      do ti <- resolve v h;
      let nested v' h' :=
        match fuel with
        | O => NoFuel
        | S k => encode k v' h'
        end in
      match classify (fst ti) with
      | Some DInt => encodeInt v
      | Some DFloat => encodeFloat v
      | Some DDouble => encodeDouble v
      | Some DBoolean => encodeBoolean v
      | Some DText | Some DVarchar => encodeString v false
      | Some DAscii => encodeString v true
      | Some DUuid | Some DTimeuuid => encodeUuid v
      | Some DCustom | Some DDecimal | Some DInet | Some DBlob => encodeBlob v
      | Some DBigint | Some DCounter => encodeBigNumber v
      | Some DTimestamp => encodeTimestamp v
      | Some DVarint => encodeVarint v
      | Some DList | Some DSet => encodeList nested v (snd ti)
      | Some DMap => encodeMap nested v (snd ti)
      | None => Throw (TypeError "Type not supported")
      end
  end.

(** *** [decode] *)

(** A type tree as the metadata layer supplies it: [[code]] for a scalar,
    [[code, [sub]]] for a list or set, [[code, [[key], [value]]]] for a
    map. *)
Inductive typeDesc : Type :=
| Desc (code : Z) (sub : subDesc)
with subDesc : Type :=
| NoSub
| ElemSub (elem : typeDesc)
| PairSub (key val : typeDesc).

Definition desc_code (t : typeDesc) : Z :=
  match t with Desc code _ => code end.

Definition unknown_type : exn := Error "Unknown data type: ".
Definition undefined_index : exn := TypeError "Cannot read property '0' of undefined".

(** What takes the place of a code when [type[0]] is not a number, an array
    or [undefined] for instance: it equals no case of the [switch], like a
    number outside the catalog. *)
Definition no_code : Z := -1.

(** An array index: the canonical decimal form of an integer from 0 to
    2^32 - 2. *)
Definition is_digit (c : Z) : bool := (48 <=? c) && (c <=? 57).

Definition decimal_value (s : jsstring) : Z :=
  fold_left (fun n c => 10 * n + (c - 48)) s 0.

Definition array_index (key : jsstring) : option Z :=
  match key with
  | [] => None
  | d :: rest =>
      if forallb is_digit key
         && (negb (d =? 48) || match rest with [] => true | _ => false end)
         && (decimal_value key <? 4294967295)
      then Some (decimal_value key)
      else None
  end.

(** The properties of an object are visited array indexes first, by
    increasing index, then the other names in the order they were added:
    [goes_before key k] tells that a property added as [key] is visited
    before the existing property [k]. *)
Definition goes_before (key k : jsstring) : bool :=
  match array_index key, array_index k with
  | Some i, Some j => i <? j
  | Some _, None => true
  | None, _ => false
  end.

Fixpoint add_property (key : jsstring) (item : value)
  (props : list (jsstring * value)) : list (jsstring * value) :=
  match props with
  | [] => [(key, item)]
  | (k, x) :: rest =>
      if goes_before key k then (key, item) :: props
      else (k, x) :: add_property key item rest
  end.

Fixpoint replace_property (key : jsstring) (item : value)
  (props : list (jsstring * value)) : list (jsstring * value) :=
  match props with
  | [] => []
  | (k, x) :: rest =>
      if jsstring_eqb k key then (k, item) :: rest
      else (k, x) :: replace_property key item rest
  end.

(** [map[key] = item] on a plain object given by its properties in the order
    of their visit.  An assignment to [__proto__] reaches the setter that a
    plain object inherits: it adds no property, and what it may replace is
    the prototype, which this model does not carry. *)
Definition set_property (key : jsstring) (item : value)
  (props : list (jsstring * value)) : list (jsstring * value) :=
  if jsstring_eqb key (str "__proto__") then props
  else if has_key key props then replace_property key item props
  else add_property key item props.

Section Decoders.
(** The recursive call [decode(slice, [type])]. *)
Variable dec : buffer -> Z -> result value.

Fixpoint decodeItems (type : Z) (bytes : buffer) (offset : Z) (n : nat)
  : result (list value) :=
  match n with
  | O => Ok []
  | S k =>
      do length <- readUInt16BE bytes offset;
      do item <- dec (slice bytes (offset + 2) (offset + 2 + length)) type;
      do rest <- decodeItems type bytes (offset + 2 + length) k;
      Ok (item :: rest)
  end.

Definition decodeList (bytes : buffer) (type : Z) : result value :=
  do totalItems <- readUInt16BE bytes 0;
  do items <- decodeItems type bytes 2 (Z.to_nat totalItems);
  Ok (VArray items).

Fixpoint decodeEntries (type1 type2 : Z) (bytes : buffer) (offset : Z)
  (n : nat) (map : list (jsstring * value)) : result (list (jsstring * value)) :=
  match n with
  | O => Ok map
  | S k =>
      do keyLength <- readUInt16BE bytes offset;
      do key <- dec (slice bytes (offset + 2) (offset + 2 + keyLength)) type1;
      let offset1 := offset + 2 + keyLength in
      do valueLength <- readUInt16BE bytes offset1;
      do item <- dec (slice bytes (offset1 + 2) (offset1 + 2 + valueLength)) type2;
      decodeEntries type1 type2 bytes (offset1 + 2 + valueLength) k
        (set_property (ToString rt key) item map)
  end.

Definition decodeMap (bytes : buffer) (type1 type2 : Z) : result value :=
  do totalItems <- readUInt16BE bytes 0;
  do map <- decodeEntries type1 type2 bytes 2 (Z.to_nat totalItems) [];
  Ok (VObject map).

(** The subtypes are read as the source indexes them: [type[1][0]] for a
    list or set, [type[1][0][0]] and [type[1][1][0]] for a map.  Indexing
    [undefined] throws at once; an array where a code is expected, or the
    [undefined] that indexing a number gives, is handed on and equals no
    case when an item is decoded against it. *)
Definition decode_with (bytes : option buffer) (t : typeDesc) : result value :=
  match bytes with
  | None => Ok VNull
  | Some b =>
      match classify (desc_code t) with
      | Some DCustom | Some DDecimal | Some DInet => Ok (VBuffer b)
      | Some DVarint => Ok (VInteger (Integer_fromBuffer b))
      | Some DAscii => Ok (VString (ascii_decode b))
      | Some DBigint | Some DCounter =>
          do z <- Long_fromBuffer b; Ok (VLong z)
      | Some DTimestamp =>
          do z <- Long_fromBuffer b; Ok (VDate (TimeClip (Long_toNumber z)))
      | Some DBlob => Ok (VBuffer b)
      | Some DBoolean => do x <- readUInt8 b; Ok (VBool (negb (x =? 0)))
      | Some DDouble => do n <- readDoubleBE b; Ok (VNumber n)
      | Some DFloat => do n <- readFloatBE b; Ok (VNumber n)
      | Some DInt => do n <- readInt32BE b; Ok (VNumber n)
      | Some DUuid | Some DTimeuuid => Ok (VString (uuid_unparse b))
      | Some DText | Some DVarchar => Ok (VString (utf8_decode b))
      | Some DList | Some DSet =>
          match t with
          | Desc _ (ElemSub elem) => decodeList b (desc_code elem)
          | Desc _ (PairSub _ _) => decodeList b no_code
          | Desc _ NoSub => Throw undefined_index
          end
      | Some DMap =>
          match t with
          | Desc _ (PairSub key val) => decodeMap b (desc_code key) (desc_code val)
          | Desc _ (ElemSub (Desc _ (ElemSub elem))) =>
              decodeMap b no_code (desc_code elem)
          | Desc _ (ElemSub (Desc _ (PairSub _ _))) => decodeMap b no_code no_code
          | Desc _ (ElemSub (Desc _ NoSub)) => Throw undefined_index
          | Desc _ NoSub => Throw undefined_index
          end
      | None => Throw unknown_type
      end
  end.
End Decoders.

(** An item of a collection is decoded against [[type]], a tree without
    subtypes, so that the recursion stops there. *)
Definition decodeElement (bytes : buffer) (type : Z) : result value :=
  decode_with (fun _ _ => Throw undefined_index) (Some bytes) (Desc type NoSub).

Definition decode (bytes : option buffer) (t : typeDesc) : result value :=
  decode_with decodeElement bytes t.

(** *** Routing key *)

Inductive routingKeyField : Type :=
| RKAbsent
| RKBuffer (b : buffer)
| RKArray (items : list (option buffer)).

Record QueryOptions : Type := mkOptions {
  hints : option (list hint);
  routingKey : routingKeyField;
  routingIndexes : option (list Z)
}.

Definition set_routingKey (o : QueryOptions) (k : routingKeyField) : QueryOptions :=
  mkOptions (hints o) k (routingIndexes o).

Definition of_item (item : option buffer) : routingKeyField :=
  match item with
  | Some b => RKBuffer b
  | None => RKAbsent
  end.

Definition item_length (item : option buffer) : result Z :=
  match item with
  | Some b => Ok (len b)
  | None => Throw null_length
  end.

Fixpoint totalLength (items : list (option buffer)) : result Z :=
  match items with
  | [] => Ok 0
  | item :: rest =>
      do n <- item_length item; do r <- totalLength rest; Ok (2 + n + 1 + r)
  end.

Fixpoint writeFragments (items : list (option buffer)) : result buffer :=
  match items with
  | [] => Ok []
  | item :: rest =>
      do n <- item_length item;
      do lb <- writeInt16BE n;
      do r <- writeFragments rest;
      Ok (lb ++ match item with Some b => b | None => [] end ++ [0] ++ r)
  end.

(** The branch of [setRoutingKey] taken when [options.routingKey] is an
    array. *)
Definition composeRoutingKey (o : QueryOptions) (items : list (option buffer))
  : QueryOptions * result unit :=
  match items with
  | [item] => (set_routingKey o (of_item item), Ok tt)
  | _ =>
      match (do _ <- totalLength items; writeFragments items) with
      | Ok b => (set_routingKey o (RKBuffer b), Ok tt)
      | Throw e => (o, Throw e)
      | NoFuel => (o, NoFuel)
      end
  end.

Definition element_at {A : Type} (d : A) (l : list A) (i : Z) : A :=
  if i <? 0 then d else nth (Z.to_nat i) l d.

(** [if (!hints) hints = []] *)
Definition hints_or_empty (o : QueryOptions) : list hint :=
  match hints o with Some l => l | None => [] end.

(** [encoder.encode(params[paramIndex], hints[paramIndex])] *)
Definition candidate (fuel : nat) (ps : list value) (hs : list hint)
  (paramIndex : Z) : result (option buffer) :=
  encode fuel (element_at VUndefined ps paramIndex) (element_at HAbsent hs paramIndex).

(** The options object is mutated in place: the result pairs its final
    state with the outcome.  The recursive call of the source is made with
    an array of two or more candidates installed, hence enters
    [composeRoutingKey]. *)
Definition setRoutingKey (fuel : nat) (params : option (list value))
  (o : QueryOptions) : QueryOptions * result unit :=
  match routingKey o with
  | RKArray items => composeRoutingKey o items
  | RKBuffer _ => (o, Ok tt)
  | RKAbsent =>
      match routingIndexes o, params with
      | None, _ | _, None | _, Some [] => (o, Ok tt)
      | Some indexes, Some ps =>
          match mapM (candidate fuel ps (hints_or_empty o)) indexes with
          | Throw e => (o, Throw e)
          | NoFuel => (o, NoFuel)
          | Ok [] => (o, Ok tt)
          | Ok [k] => (set_routingKey o (of_item k), Ok tt)
          | Ok routingKeys =>
              composeRoutingKey (set_routingKey o (RKArray routingKeys)) routingKeys
          end
      end
  end.
End Runtime.

(** ** A concrete runtime, for the worked examples

    Integer literals only (decimal, with an optional sign, or [0x]
    hexadecimal), plain catalog names, no date parsing, no host properties. *)

Fixpoint digits_value (base acc : Z) (s : jsstring) : option Z :=
  match s with
  | [] => Some acc
  | c :: rest =>
      match hex_value c with
      | Some d => if d <? base then digits_value base (acc * base + d) rest else None
      | None => None
      end
  end.

Definition parse_decimal (s : jsstring) : option Z :=
  match s with
  | [] => None
  | c :: rest =>
      if c =? 45 then
        match rest with
        | [] => None
        | _ => option_map Z.opp (digits_value 10 0 rest)
        end
      else digits_value 10 0 s
  end.

Definition parse_integer (s : jsstring) : option Z :=
  match s with
  | 48 :: 120 :: (_ :: _) as digits => digits_value 16 0 digits
  | _ => parse_decimal s
  end.

Definition catalog_lookup (name : jsstring) : option dataType :=
  find (fun t =>
          jsstring_eqb name
            (str match t with
                 | DCustom => "custom" | DAscii => "ascii" | DBigint => "bigint"
                 | DBlob => "blob" | DBoolean => "boolean" | DCounter => "counter"
                 | DDecimal => "decimal" | DDouble => "double" | DFloat => "float"
                 | DInt => "int" | DText => "text" | DTimestamp => "timestamp"
                 | DUuid => "uuid" | DVarchar => "varchar" | DVarint => "varint"
                 | DTimeuuid => "timeuuid" | DInet => "inet" | DList => "list"
                 | DMap => "map" | DSet => "set"
                 end))
       all_dataTypes.

Definition sample_runtime : runtime :=
  mkRuntime
    (fun name =>
       match catalog_lookup name with
       | Some t => Ok (mkTypeInfo (Some (code_of t)) None)
       | None => Throw (TypeError "Datatype not valid")
       end)
    (fun s =>
       match s with
       | [] => S754_zero false
       | _ => match parse_integer s with
              | Some z => number_of_Z z
              | None => S754_nan
              end
       end)
    (fun v => match v with VString s => s | _ => str "[object Object]" end)
    (fun _ => S754_nan)
    (fun s => match parse_decimal s with
              | Some z => Ok z
              | None => Throw (Error "number format error")
              end)
    (fun s => match parse_decimal s with
              | Some z => Ok z
              | None => Throw (Error "number format error")
              end)
    (fun _ => []).

Definition hex_of (b : buffer) : string :=
  string_of_list_ascii
    (flat_map (fun x => [ascii_of_N (Z.to_N (hex_digit (x / 16)));
                         ascii_of_N (Z.to_N (hex_digit (x mod 16)))]) b).

(** ** Vocabulary of the statements *)

Definition is_fragment_array (k : routingKeyField) : bool :=
  match k with RKArray _ => true | _ => false end.

Definition is_single_buffer (k : routingKeyField) : bool :=
  match k with RKBuffer _ => true | _ => false end.

Definition no_parameters (params : option (list value)) : bool :=
  match params with None | Some [] => true | _ => false end.

(** The framing of one fragment of a composite routing key: its length on
    two big-endian octets, its octets, one zero octet. *)
Definition frame (fragment : buffer) : buffer :=
  be_split 2 (len fragment) ++ fragment ++ [0].

Definition composite (fragments : list buffer) : buffer :=
  flat_map frame fragments.

Definition short_fragment (fragment : buffer) : Prop := len fragment <= 32767.

Definition is_absent (v : value) : bool :=
  match v with VNull | VUndefined => true | _ => false end.

Definition is_list_code (code : Z) : bool :=
  match classify code with
  | Some DList | Some DSet => true
  | _ => false
  end.


(** The textual grammar of a UUID: groups of 8, 4, 4, 4 and 12 hexadecimal
    digits of either case, separated by hyphens. *)
Definition hex_char (c : Z) : Prop :=
  48 <= c <= 57 \/ 97 <= c <= 102 \/ 65 <= c <= 70.

Definition hex_group (n : nat) (g : jsstring) : Prop :=
  List.length g = n /\ Forall hex_char g.

Definition uuid_text (s : jsstring) : Prop :=
  exists g1 g2 g3 g4 g5,
    s = g1 ++ dash ++ g2 ++ dash ++ g3 ++ dash ++ g4 ++ dash ++ g5
    /\ hex_group 8 g1 /\ hex_group 4 g2 /\ hex_group 4 g3
    /\ hex_group 4 g4 /\ hex_group 12 g5.

Definition guessed (code : Z) : option typeInfo :=
  Some (mkTypeInfo (Some code) None).

(** [shl m k] is [m] shifted left by [k] binary places. *)
Definition shl (m : positive) (k : Z) : positive :=
  match k with
  | Zpos p => Pos.iter xO m p
  | _ => m
  end.

Definition digits (m : positive) : Z := Zpos (digits2_pos m).

Definition exact_record (m : positive) : shr_record :=
  Build_shr_record (Zpos m) false false.


Definition octet (x : Z) : Prop := 0 <= x < 256.

(** A code unit that is a code point by itself. *)
Definition scalar_unit (c : Z) : Prop :=
  0 <= c < 55296 \/ 57344 <= c <= 65535.

(** Well-formed UTF-16: every surrogate is half of a pair. *)
Inductive well_formed : jsstring -> Prop :=
| wf_nil : well_formed []
| wf_unit (c : Z) (s : jsstring) :
    scalar_unit c -> well_formed s -> well_formed (c :: s)
| wf_pair (h l : Z) (s : jsstring) :
    is_high_surrogate h = true -> is_low_surrogate l = true ->
    well_formed s -> well_formed (h :: l :: s).

Definition safe_integer (z : Z) : Prop := Z.abs z < 2 ^ 53.
Definition int32 (z : Z) : Prop := - 2 ^ 31 <= z <= 2 ^ 31 - 1.
Definition int64 (z : Z) : Prop := Long_min <= z <= Long_max.
Definition time_value (ms : Z) : Prop := Z.abs ms <= 8640000000000000.

(** The host values in the form in which [decode] yields them, per scalar
    type: a number that is a 32-bit integer, a binary32 value, any number; a
    boolean; a well-formed string, a 7-bit string, the lower-case text of
    sixteen octets; a buffer; a [Long], a [Date] with a time value, an
    [Integer]. *)
Definition canonical (t : dataType) (v : value) : Prop :=
  match t with
  | DInt => exists z, int32 z /\ v = VNumber (number_of_Z z)
  | DFloat =>
      exists f, valid_binary prec32 emax32 f = true
                /\ v = VNumber (round_to prec64 emax64 f)
  | DDouble => exists n, valid_number n = true /\ v = VNumber n
  | DBoolean => exists b, v = VBool b
  | DText | DVarchar => exists s, well_formed s /\ v = VString s
  | DAscii => exists s, Forall (fun c => 0 <= c < 128) s /\ v = VString s
  | DUuid | DTimeuuid =>
      exists b, List.length b = 16%nat /\ Forall octet b
                /\ v = VString (uuid_unparse b)
  | DCustom | DDecimal | DInet | DBlob => exists b, v = VBuffer b
  | DBigint | DCounter => exists z, int64 z /\ v = VLong z
  | DTimestamp => exists ms, time_value ms /\ v = VDate (number_of_Z ms)
  | DVarint => exists z, v = VInteger z
  | DList | DMap | DSet => False
  end.

(** The hints that name a type of the catalog: its code, a descriptor
    holding its code, or a name that the catalog resolves to its code. *)
Definition names (rt : runtime) (t : dataType) (h : hint) : Prop :=
  h = HCode (code_of t)
  \/ (exists subs, h = HInfo (Some (code_of t)) subs)
  \/ (exists name subs,
        h = HName name /\ name <> []
        /\ getByName rt name = Ok (mkTypeInfo (Some (code_of t)) subs)).

Definition descriptor (t : dataType) : typeDesc := Desc (code_of t) NoSub.

(** ** Inputs of the worked examples *)

Definition one : value := VNumber (number_of_Z 1).
Definition two : value := VNumber (number_of_Z 2).

Definition buffer_options : QueryOptions :=
  mkOptions None (RKBuffer [1; 2; 3; 4]) (Some [1]).

Definition unguessable : value := VObject [(str "a", one)].

Definition long_fragment : buffer := repeat 0 (Z.to_nat 32768).

Definition long_fragment_options : QueryOptions :=
  mkOptions None (RKArray [Some long_fragment; Some [1]]) None.

Definition list_of_int : hint := HInfo (Some dataTypes.list) (Some [HCode dataTypes.int]).

Definition indexed_options : QueryOptions :=
  mkOptions (Some [HName (str "int"); HName (str "string"); HName (str "int")])
            RKAbsent (Some [0; 2]).

Definition indexed_params : list value := [one; VString (str "yeah"); two].

Definition int_hint : hint := HName (str "int").

Definition epoch_ms : value := VNumber (number_of_Z 1421755130012).


(** ** Further vocabulary *)

Definition not_supported : exn := TypeError "Type not supported".

Definition not_guessed : exn :=
  TypeError "Target data type could not be guessed, you must specify a hint for value:".

(** The shape of value that the encoder of a type insists on, for the types
    whose encoder tests nothing else. *)
Definition is_number (v : value) : bool :=
  match v with VNumber _ => true | _ => false end.

Definition is_string (v : value) : bool :=
  match v with VString _ => true | _ => false end.

Definition is_buffer (v : value) : bool :=
  match v with VBuffer _ => true | _ => false end.

Definition required_shape (t : dataType) : option (value -> bool) :=
  match t with
  | DFloat | DDouble => Some is_number
  | DText | DVarchar | DAscii => Some is_string
  | DBlob | DCustom | DDecimal | DInet => Some is_buffer
  | DUuid | DTimeuuid => Some (fun v => is_string v || is_buffer v)
  | _ => None
  end.

(** The types under which a buffer is taken to be the encoding already. *)
Definition takes_raw_bytes (t : dataType) : bool :=
  match t with
  | DBlob | DCustom | DDecimal | DInet | DBigint | DCounter | DTimestamp
  | DVarint | DUuid | DTimeuuid => true
  | _ => false
  end.

Definition is_collection_code (code : Z) : bool :=
  match classify code with
  | Some DList | Some DSet | Some DMap => true
  | _ => false
  end.

(** An item of a collection on the wire: its length on two big-endian
    octets, then its octets. *)
Definition item_frame (b : buffer) : buffer := be_split 2 (len b) ++ b.

Definition list_wire (items : list buffer) : buffer :=
  be_split 2 (len items) ++ flat_map item_frame items.

Definition framable (b : buffer) : Prop := 0 < len b <= 65535.










(** The octets that the decoder of a fixed-width type reads with a [Buffer]
    reader. *)
Definition reader_width (t : dataType) : option Z :=
  match t with
  | DInt | DFloat => Some 4
  | DDouble => Some 8
  | DBoolean => Some 1
  | _ => None
  end.

Definition beyond (ps : list value) (i : Z) : Prop := i < 0 \/ len ps <= i.

(** ** Further inputs of the worked examples *)

Definition unknown_code : Z := 99.
Definition a_string : value := VString (str "a string").
Definition text_map : typeDesc :=
  Desc dataTypes.map (PairSub (Desc dataTypes.text NoSub) (Desc dataTypes.text NoSub)).
Definition int_list : typeDesc :=
  Desc dataTypes.list (ElemSub (Desc dataTypes.int NoSub)).
Definition huge_blob : buffer := repeat 0 (Z.to_nat 65536).
Definition many_items : list value := repeat VNull (Z.to_nat 65536).
Definition index_zero_options : QueryOptions := mkOptions None RKAbsent (Some [0]).
Definition index_two_options : QueryOptions := mkOptions None RKAbsent (Some [2]).
(** * Properties *)

(** Case analysis on the integer comparisons of the goal. *)
Ltac case_cmp :=
  repeat match goal with
         | |- context [?a >? ?b] => rewrite (Z.gtb_ltb a b)
         | |- context [?a <? ?b] => destruct (Z.ltb_spec a b)
         | |- context [?a <=? ?b] => destruct (Z.leb_spec a b)
         | |- context [?a =? ?b] => destruct (Z.eqb_spec a b)
         end.

Section Facts.
Variable rt : runtime.

(** ** [encode]: absent values, dispatch *)

Lemma encode_unfold (fuel : nat) (v : value) (h : hint) :
  encode rt fuel v h =
  match v with
  | VNull | VUndefined => Ok None
  | _ =>
      do ti <- resolve rt v h;
      let nested v' h' :=
        match fuel with
        | O => NoFuel
        | S k => encode rt k v' h'
        end in
      match classify (fst ti) with
      | Some DInt => encodeInt rt v
      | Some DFloat => encodeFloat v
      | Some DDouble => encodeDouble v
      | Some DBoolean => encodeBoolean v
      | Some DText | Some DVarchar => encodeString v false
      | Some DAscii => encodeString v true
      | Some DUuid | Some DTimeuuid => encodeUuid v
      | Some DCustom | Some DDecimal | Some DInet | Some DBlob => encodeBlob v
      | Some DBigint | Some DCounter => encodeBigNumber rt v
      | Some DTimestamp => encodeTimestamp rt v
      | Some DVarint => encodeVarint rt v
      | Some DList | Some DSet => encodeList rt nested v (snd ti)
      | Some DMap => encodeMap rt nested v (snd ti)
      | None => Throw (TypeError "Type not supported")
      end
  end.
Proof. destruct fuel; reflexivity. Qed.

(** C5.  Whatever the hint -- a numeric code, a name, a descriptor, or none --
    [encode(null, h)] and [encode(undefined, h)] return [null]: no exception
    and no empty buffer; and so does [encode()], called without arguments. *)
Theorem encode_absent_value_is_null :
  forall (fuel : nat) (h : hint),
    encode rt fuel VNull h = Ok None
    /\ encode rt fuel VUndefined h = Ok None
    /\ encode rt fuel VUndefined HAbsent = Ok None.
Proof. intros fuel h; rewrite !encode_unfold; repeat split. Qed.

(** C10.  Under a hint that resolves to the map type, an object without own
    enumerable properties encodes to the two octets [00 00] -- a count of
    zero -- and not to [null]; an empty array under a list or set hint
    encodes to [null]. *)
Theorem encode_empty_map_is_zero_count :
  forall (fuel : nat) (v : value) (h : hint) (subs : option (list hint)),
    is_absent v = false ->
    ownProperties rt v = [] ->
    resolve rt v h = Ok (dataTypes.map, subs) ->
    encode rt fuel v h = Ok (Some [0; 0])
    /\ be_combine [0; 0] = 0
    /\ encode rt fuel (VArray []) (HCode dataTypes.list) = Ok None
    /\ encode rt fuel (VArray []) (HCode dataTypes.set) = Ok None.
Proof.
  intros fuel v h subs Habs Hown Hres; rewrite !encode_unfold; rewrite Hres.
  repeat split.
  destruct v; try discriminate; cbn [bind fst snd];
    change (classify dataTypes.map) with (Some DMap); cbv iota;
    unfold encodeMap; rewrite Hown; reflexivity.
Qed.

(** ** [setRoutingKey] *)

(** C8.  The second rule of [setRoutingKey], reached when the first has not
    applied, that is when [options.routingKey] is not an array of fragments:
    the options are left as they are, [routingKey] and every other field,
    whenever [options.routingKey] is already a single buffer, or
    [options.routingIndexes] is absent, or the parameters are absent or
    empty. *)
Theorem setRoutingKey_noop :
  forall (fuel : nat) (params : option (list value)) (o : QueryOptions),
    is_fragment_array (routingKey o) = false ->
    is_single_buffer (routingKey o) = true
    \/ routingIndexes o = None
    \/ no_parameters params = true ->
    setRoutingKey rt fuel params o = (o, Ok tt).
Proof.
  intros fuel params o Harr Hcase; unfold setRoutingKey.
  destruct (routingKey o) as [| b | items]; try discriminate; try reflexivity.
  destruct Hcase as [Hb | [Hi | Hp]].
  - discriminate.
  - rewrite Hi; reflexivity.
  - destruct (routingIndexes o); [| reflexivity].
    destruct params as [[| p ps] |]; try discriminate; reflexivity.
Qed.

Lemma mapM_app_throw {A B : Type} (f : A -> result B) (before after : list A)
  (a : A) (e : exn) :
  (forall x, In x before -> exists b, f x = Ok b) ->
  f a = Throw e ->
  mapM f (before ++ a :: after) = Throw e.
Proof.
  intros Hok Ha; induction before as [| x before IH]; simpl.
  - rewrite Ha; reflexivity.
  - destruct (Hok x (or_introl eq_refl)) as [b Hb]; rewrite Hb; simpl.
    rewrite IH; [reflexivity |].
    intros y Hy; apply Hok; right; exact Hy.
Qed.

(** C9.  When the routing key has to be built from the parameters and the
    encoding of one of the selected parameters throws (under its hint, or
    for want of a guessable type), [setRoutingKey] throws that same error
    and the options keep the state they had: no routing key is installed. *)
Theorem setRoutingKey_encode_failure :
  forall (fuel : nat) (ps : list value) (o : QueryOptions)
         (before after : list Z) (i : Z) (e : exn),
    routingKey o = RKAbsent ->
    routingIndexes o = Some (before ++ i :: after) ->
    ps <> [] ->
    (forall j, In j before ->
               exists b, candidate rt fuel ps (hints_or_empty o) j = Ok b) ->
    candidate rt fuel ps (hints_or_empty o) i = Throw e ->
    setRoutingKey rt fuel (Some ps) o = (o, Throw e)
    /\ routingKey (fst (setRoutingKey rt fuel (Some ps) o)) = RKAbsent.
Proof.
  intros fuel ps o before after i e Hk Hi Hps Hbefore Hfail.
  assert (H : setRoutingKey rt fuel (Some ps) o = (o, Throw e)).
  { unfold setRoutingKey; rewrite Hk, Hi.
    destruct ps as [| p ps']; [contradiction Hps; reflexivity |].
        rewrite (mapM_app_throw _ before after i e Hbefore Hfail); reflexivity. }
  split; [exact H | rewrite H; exact Hk].
Qed.

(** ** Composite routing keys *)

Lemma writeInt16BE_short (n : Z) :
  0 <= n <= 32767 -> writeInt16BE n = Ok (be_split 2 n).
Proof.
  intros Hn; unfold writeInt16BE; case_cmp; try lia.
  simpl orb; cbv iota; rewrite Z.mod_small by lia; reflexivity.
Qed.

Lemma writeInt16BE_long (n : Z) :
  32767 < n -> writeInt16BE n = Throw out_of_bounds.
Proof.
  intros Hn; unfold writeInt16BE; case_cmp; try lia; reflexivity.
Qed.

Lemma len_nonneg {A : Type} (l : list A) : 0 <= len l.
Proof. unfold len; lia. Qed.

Lemma totalLength_buffers (fragments : list buffer) :
  exists n, totalLength (map Some fragments) = Ok n.
Proof.
  induction fragments as [| b rest [n IH]]; simpl.
  - exists 0; reflexivity.
  - rewrite IH; simpl; eexists; reflexivity.
Qed.

Lemma writeFragments_composite (fragments : list buffer) :
  Forall short_fragment fragments ->
  writeFragments (map Some fragments) = Ok (composite fragments).
Proof.
  induction 1 as [| b rest Hb _ IH]; simpl; [reflexivity |].
  rewrite writeInt16BE_short by (split; [apply len_nonneg | exact Hb]).
  simpl; rewrite IH; simpl; unfold frame.
  rewrite <- !app_assoc; reflexivity.
Qed.

Lemma writeFragments_long (fragments : list buffer) :
  Exists (fun b => 32767 < len b) fragments ->
  writeFragments (map Some fragments) = Throw out_of_bounds.
Proof.
  induction fragments as [| b rest IH]; intros Hex; [inversion Hex |]; simpl.
  destruct (Z_lt_le_dec 32767 (len b)) as [Hlong | Hshort].
  - rewrite writeInt16BE_long by exact Hlong; reflexivity.
  - rewrite writeInt16BE_short by (split; [apply len_nonneg | exact Hshort]); simpl.
    rewrite IH; [reflexivity |].
    inversion Hex; subst; [lia | assumption].
Qed.

Lemma composeRoutingKey_composite (o : QueryOptions) (fragments : list buffer) :
  (2 <= List.length fragments)%nat ->
  Forall short_fragment fragments ->
  composeRoutingKey o (map Some fragments)
  = (set_routingKey o (RKBuffer (composite fragments)), Ok tt).
Proof.
  intros Hlen Hshort; unfold composeRoutingKey.
  destruct (totalLength_buffers fragments) as [n Hn].
  destruct fragments as [| a [| b rest]]; simpl in Hlen; try lia.
  rewrite Hn; cbn [bind map]; change (Some a :: Some b :: map Some rest)
    with (map Some (a :: b :: rest)).
  rewrite writeFragments_composite by exact Hshort; reflexivity.
Qed.

(** C2.  An array of two or more fragment buffers one of which holds 32768
    octets or more is not assembled: the signed 16-bit write of the fragment
    length throws, and the array stays in [options.routingKey]. *)
Theorem setRoutingKey_long_fragment_throws :
  forall (fuel : nat) (params : option (list value)) (o : QueryOptions)
         (fragments : list buffer),
    routingKey o = RKArray (map Some fragments) ->
    (2 <= List.length fragments)%nat ->
    Exists (fun b => 32767 < len b) fragments ->
    setRoutingKey rt fuel params o = (o, Throw out_of_bounds).
Proof.
  intros fuel params o fragments Hk Hlen Hlong.
  unfold setRoutingKey; rewrite Hk; unfold composeRoutingKey.
  destruct (totalLength_buffers fragments) as [n Hn].
  destruct fragments as [| a [| b rest]]; simpl in Hlen; try lia.
  rewrite Hn; cbn [bind map]; change (Some a :: Some b :: map Some rest)
    with (map Some (a :: b :: rest)).
  rewrite writeFragments_long by exact Hlong; reflexivity.
Qed.

(** What does hold of an array of fragments: one fragment collapses to
    itself, two or more short ones are framed and concatenated in order. *)
Lemma setRoutingKey_fragments (fuel : nat) (params : option (list value))
  (o : QueryOptions) (fragments : list buffer) :
  routingKey o = RKArray (map Some fragments) ->
  Forall short_fragment fragments ->
  (forall b, fragments = [b] ->
             setRoutingKey rt fuel params o = (set_routingKey o (RKBuffer b), Ok tt))
  /\ ((2 <= List.length fragments)%nat ->
      setRoutingKey rt fuel params o
      = (set_routingKey o (RKBuffer (composite fragments)), Ok tt)).
Proof.
  intros Hk Hshort; unfold setRoutingKey; rewrite Hk; split.
  - intros b ->; reflexivity.
  - intros Hlen; apply composeRoutingKey_composite; assumption.
Qed.

Lemma mapM_Forall2 {A B C : Type} (f : A -> result C) (g : B -> C)
  (l : list A) (r : list B) :
  Forall2 (fun a b => f a = Ok (g b)) l r -> mapM f l = Ok (map g r).
Proof.
  induction 1 as [| a b l r Hab _ IH]; simpl; [reflexivity |].
  rewrite Hab; simpl; rewrite IH; reflexivity.
Qed.

(** C4, amended.  With no routing key in the options, an array of routing
    indexes and at least one parameter, [setRoutingKey] encodes, for each
    listed index in order, the parameter at that index under the hint at that
    index (no hint: the type is guessed); positions that are not listed are
    not encoded.  When every candidate is a buffer: a single candidate is
    installed as it is, unframed; two or more candidates, each shorter than
    32768 octets, are installed framed and concatenated. *)
Theorem setRoutingKey_from_indexes :
  forall (fuel : nat) (ps : list value) (o : QueryOptions)
         (indexes : list Z) (candidates : list buffer),
    routingKey o = RKAbsent ->
    routingIndexes o = Some indexes ->
    ps <> [] ->
    Forall2 (fun i c => candidate rt fuel ps (hints_or_empty o) i = Ok (Some c))
            indexes candidates ->
    (forall c, candidates = [c] ->
               setRoutingKey rt fuel (Some ps) o
               = (set_routingKey o (RKBuffer c), Ok tt))
    /\ ((2 <= List.length candidates)%nat ->
        Forall short_fragment candidates ->
        setRoutingKey rt fuel (Some ps) o
        = (set_routingKey o (RKBuffer (composite candidates)), Ok tt)).
Proof.
  intros fuel ps o indexes candidates Hk Hi Hps Hcand.
  apply mapM_Forall2 in Hcand.
  unfold setRoutingKey; rewrite Hk, Hi.
  destruct ps as [| p ps']; [contradiction Hps; reflexivity |].
  rewrite Hcand; split.
  - intros c ->; reflexivity.
  - intros Hlen Hshort.
    destruct candidates as [| a [| b rest]]; simpl in Hlen; try lia.
    change (Some a :: Some b :: map Some rest) with (map Some (a :: b :: rest)).
    cbv iota beta.
    rewrite composeRoutingKey_composite by (simpl; auto; lia).
    reflexivity.
Qed.

(** ** Lists with a [null] item *)

Lemma Buffer_concat_null (parts : list (option buffer)) :
  In None parts -> Buffer_concat parts = Throw null_length.
Proof.
  induction parts as [| [b |] rest IH]; simpl; intros Hin.
  - contradiction.
  - destruct Hin as [Hin | Hin]; [discriminate |].
    rewrite IH by exact Hin; reflexivity.
  - reflexivity.
Qed.

Lemma encode_absent (fuel : nat) (v : value) (h : hint) :
  is_absent v = true -> encode rt fuel v h = Ok None.
Proof. destruct v; try discriminate; intros _; rewrite encode_unfold; reflexivity. Qed.

Lemma encodeItems_absent (enc : value -> hint -> result (option buffer))
  (subtype : hint) (items : list value) (parts : list (option buffer)) :
  (forall v, is_absent v = true -> forall r, enc v subtype = Ok r -> r = None) ->
  existsb is_absent items = true ->
  encodeItems rt enc subtype items = Ok parts ->
  In None parts.
Proof.
  intros Henc; revert parts; induction items as [| v rest IH];
    cbn [encodeItems existsb]; intros parts Hex Hok.
  - discriminate.
  - destruct (enc v subtype) as [bytes | |] eqn:Hv; cbn [bind] in Hok;
      try discriminate.
    destruct (getLengthBuffer rt (OfBytes bytes)); cbn [bind] in Hok;
      try discriminate.
    destruct (encodeItems rt enc subtype rest) as [ps | |] eqn:Hrest;
      cbn [bind] in Hok; try discriminate.
    injection Hok as <-.
    destruct (is_absent v) eqn:Habs.
    + right; left; apply (Henc v Habs); exact Hv.
    + right; right; apply IH; [exact Hex | reflexivity].
Qed.

(** C3.  Under a list or set hint the empty array encodes to [null].  An
    array with a [null] (or [undefined]) item never encodes to a buffer: the
    item is pushed, as [null], among the parts, and [Buffer.concat] throws
    on it -- once every item has been encoded and measured, that is the
    outcome. *)
Theorem encodeList_null_item_throws :
  forall (fuel : nat) (items : list value) (h : hint) (code : Z)
         (subs : option (list hint)),
    resolve rt (VArray items) h = Ok (code, subs) ->
    is_list_code code = true ->
    (items = [] -> encode rt fuel (VArray items) h = Ok None)
    /\ (existsb is_absent items = true ->
        (forall r, encode rt fuel (VArray items) h <> Ok r)
        /\ (forall lb parts,
              getLengthBuffer rt (OfArray items) = Ok lb ->
              encodeItems rt (encode rt fuel) (subtype_at 0 subs) items = Ok parts ->
              encode rt (S fuel) (VArray items) h = Throw null_length)).
Proof.
  intros fuel items h code subs Hres Hcode.
  assert (Hlist : forall k,
             encode rt k (VArray items) h
             = encodeList rt (fun v' h' => match k with
                                           | O => NoFuel
                                           | S k' => encode rt k' v' h'
                                           end) (VArray items) subs).
  { intros k; rewrite encode_unfold, Hres; simpl.
    unfold is_list_code in Hcode; simpl fst.
    destruct (classify code) as [[] |]; try discriminate; reflexivity. }
  split.
  - intros ->; rewrite Hlist; reflexivity.
  - intros Habs.
    assert (Hlen : (len items =? 0) = false).
    { destruct items; [discriminate |].
      apply Z.eqb_neq; unfold len; simpl; lia. }
    split.
    + intros r; rewrite Hlist; unfold encodeList; rewrite Hlen.
      destruct (getLengthBuffer rt (OfArray items)); cbn [bind]; try discriminate.
      match goal with
      | |- context [encodeItems rt ?enc ?s items] =>
          destruct (encodeItems rt enc s items) as [parts | |] eqn:Hparts
      end; cbn [bind]; try discriminate.
      rewrite Buffer_concat_null; [discriminate |].
      right; apply (encodeItems_absent _ _ _ _) with (3 := Hparts); [| exact Habs].
      intros v Hv r'; destruct fuel; [discriminate |].
      rewrite (encode_absent _ _ _ Hv); congruence.
    + intros lb parts Hlb Hparts; rewrite Hlist; unfold encodeList; rewrite Hlen.
      rewrite Hlb; cbn [bind].
      change (fun v' h' => encode rt fuel v' h') with (encode rt fuel).
      rewrite Hparts; cbn [bind].
      rewrite Buffer_concat_null; [reflexivity |].
      right; apply (encodeItems_absent _ _ _ _) with (3 := Hparts); [| exact Habs].
      intros v Hv r'; rewrite (encode_absent _ _ _ Hv); congruence.
Qed.

(** ** The recursion budget

    An outcome other than [NoFuel] does not depend on the budget: a larger
    one gives the same. *)

Section Budget.
Variables enc1 enc2 : value -> hint -> result (option buffer).
Hypothesis Henc : forall v h, enc1 v h <> NoFuel -> enc2 v h = enc1 v h.

Lemma bind_definite {A B : Type} (r : result A) (k : A -> result B) :
  bind r k <> NoFuel -> r <> NoFuel.
Proof. destruct r; simpl; congruence. Qed.

Lemma encodeItems_budget (subtype : hint) (items : list value) :
  encodeItems rt enc1 subtype items <> NoFuel ->
  encodeItems rt enc2 subtype items = encodeItems rt enc1 subtype items.
Proof.
  induction items as [| item rest IH]; cbn [encodeItems]; [reflexivity |].
  intros Hdef; rewrite Henc by (apply bind_definite in Hdef; exact Hdef).
  destruct (enc1 item subtype) as [bytes | |]; cbn [bind] in *; try reflexivity.
  destruct (getLengthBuffer rt (OfBytes bytes)); cbn [bind] in *; try reflexivity.
  rewrite IH by (apply bind_definite in Hdef; exact Hdef); reflexivity.
Qed.

Lemma encodeEntries_budget (owner : value) (ks vs : hint)
  (props : list (jsstring * value)) :
  encodeEntries rt enc1 owner ks vs props <> NoFuel ->
  encodeEntries rt enc2 owner ks vs props = encodeEntries rt enc1 owner ks vs props.
Proof.
  induction props as [| [key item] rest IH]; cbn [encodeEntries]; [reflexivity |].
  destruct (hasOwnProperty rt owner key) as [[|] | |]; cbn [bind];
    try reflexivity; [| exact IH].
  intros Hdef; rewrite Henc by (apply bind_definite in Hdef; exact Hdef).
  destruct (enc1 (VString key) ks) as [kb | |]; cbn [bind] in *; try reflexivity.
  destruct (getLengthBuffer rt (OfBytes kb)); cbn [bind] in *; try reflexivity.
  rewrite Henc by (apply bind_definite in Hdef; exact Hdef).
  destruct (enc1 item vs) as [vb | |]; cbn [bind] in *; try reflexivity.
  destruct (getLengthBuffer rt (OfBytes vb)); cbn [bind] in *; try reflexivity.
  rewrite IH by (apply bind_definite in Hdef; exact Hdef); reflexivity.
Qed.

Lemma encodeList_budget (v : value) (subs : option (list hint)) :
  encodeList rt enc1 v subs <> NoFuel ->
  encodeList rt enc2 v subs = encodeList rt enc1 v subs.
Proof.
  unfold encodeList; destruct v; try reflexivity.
  destruct (len items =? 0); [reflexivity |].
  destruct (getLengthBuffer rt (OfArray items)); cbn [bind]; try reflexivity.
  intros Hdef; rewrite encodeItems_budget by (apply bind_definite in Hdef; exact Hdef).
  reflexivity.
Qed.

Lemma encodeMap_budget (v : value) (subs : option (list hint)) :
  encodeMap rt enc1 v subs <> NoFuel ->
  encodeMap rt enc2 v subs = encodeMap rt enc1 v subs.
Proof.
  unfold encodeMap; intros Hdef.
  rewrite encodeEntries_budget by (apply bind_definite in Hdef; exact Hdef).
  reflexivity.
Qed.
End Budget.

Lemma encode_budget (fuel : nat) :
  forall (v : value) (h : hint),
    encode rt fuel v h <> NoFuel ->
    encode rt (S fuel) v h = encode rt fuel v h.
Proof.
  induction fuel as [| k IH]; intros v h; rewrite (encode_unfold (S _)), (encode_unfold _ v h);
    destruct v; try reflexivity;
    (destruct (resolve rt _ h) as [ti | |]; cbn [bind]; try reflexivity;
     destruct (classify (fst ti)) as [[] |]; try reflexivity; intros Hdef;
     first [apply encodeList_budget | apply encodeMap_budget];
     try exact Hdef; intros v' h' Hv'; first [contradiction Hv'; reflexivity | apply IH; exact Hv']).
Qed.

(** ** Type inference *)

Lemma is_hex_spec (c : Z) : is_hex c = true <-> hex_char c.
Proof.
  unfold is_hex, hex_value, hex_char.
  destruct (Z.leb_spec 48 c), (Z.leb_spec c 57), (Z.leb_spec 97 c),
    (Z.leb_spec c 102), (Z.leb_spec 65 c), (Z.leb_spec c 70);
    simpl; split; intros Hc; try discriminate; try reflexivity; lia.
Qed.

Lemma match_hex_app (n : nat) (g r : jsstring) :
  hex_group n g -> match_hex n (g ++ r) = Some r.
Proof.
  revert g; induction n as [| n IH]; intros g [Hlen Hhex].
  - destruct g; [reflexivity | discriminate].
  - destruct g as [| c g]; [discriminate |]; simpl.
    inversion Hhex as [| ? ? Hc Hg]; subst.
    apply is_hex_spec in Hc; rewrite Hc.
    apply IH; split; [simpl in Hlen; lia | exact Hg].
Qed.

Lemma match_hex_inv (n : nat) (s r : jsstring) :
  match_hex n s = Some r -> exists g, s = g ++ r /\ hex_group n g.
Proof.
  revert s; induction n as [| n IH]; intros s; simpl.
  - intros [= ->]; exists []; repeat split; constructor.
  - destruct s as [| c s]; [discriminate |].
    destruct (is_hex c) eqn:Hc; [| discriminate].
    intros H; destruct (IH _ H) as (g & -> & Hlen & Hhex).
    exists (c :: g); repeat split; simpl; [congruence |].
    constructor; [apply is_hex_spec; exact Hc | exact Hhex].
Qed.

Lemma match_dash_inv (s r : jsstring) :
  match_dash s = Some r -> s = dash ++ r.
Proof.
  destruct s as [| c s]; simpl; [discriminate |].
  destruct (Z.eqb_spec c 45); [| discriminate].
  intros [= ->]; subst; reflexivity.
Qed.

Lemma uuid_regex_test_spec (s : jsstring) :
  uuid_regex_test s = true <-> uuid_text s.
Proof.
  unfold uuid_regex_test, uuid_text; split.
  - destruct (match_hex 8 s) as [s1 |] eqn:H1; [| discriminate]; cbn [obind].
    destruct (match_dash s1) as [s2 |] eqn:D1; [| discriminate]; cbn [obind].
    destruct (match_hex 4 s2) as [s3 |] eqn:H2; [| discriminate]; cbn [obind].
    destruct (match_dash s3) as [s4 |] eqn:D2; [| discriminate]; cbn [obind].
    destruct (match_hex 4 s4) as [s5 |] eqn:H3; [| discriminate]; cbn [obind].
    destruct (match_dash s5) as [s6 |] eqn:D3; [| discriminate]; cbn [obind].
    destruct (match_hex 4 s6) as [s7 |] eqn:H4; [| discriminate]; cbn [obind].
    destruct (match_dash s7) as [s8 |] eqn:D4; [| discriminate]; cbn [obind].
    destruct (match_hex 12 s8) as [[| c s9] |] eqn:H5; try discriminate.
    intros _.
    apply match_hex_inv in H1, H2, H3, H4, H5.
    apply match_dash_inv in D1, D2, D3, D4.
    destruct H1 as (g1 & -> & G1), H2 as (g2 & -> & G2), H3 as (g3 & -> & G3),
      H4 as (g4 & -> & G4), H5 as (g5 & -> & G5).
    subst; exists g1, g2, g3, g4, g5.
    rewrite app_nil_r.
    split; [reflexivity | repeat (split; [assumption |]); assumption].
  - intros (g1 & g2 & g3 & g4 & g5 & -> & G1 & G2 & G3 & G4 & G5).
    rewrite (match_hex_app 8 g1 _ G1); cbn [obind app dash match_dash].
    rewrite Z.eqb_refl; cbn [obind].
    rewrite (match_hex_app 4 g2 _ G2); cbn [obind app dash match_dash].
    rewrite Z.eqb_refl; cbn [obind].
    rewrite (match_hex_app 4 g3 _ G3); cbn [obind app dash match_dash].
    rewrite Z.eqb_refl; cbn [obind].
    rewrite (match_hex_app 4 g4 _ G4); cbn [obind app dash match_dash].
    rewrite Z.eqb_refl; cbn [obind].
    rewrite <- (app_nil_r g5), (match_hex_app 12 g5 [] G5); reflexivity.
Qed.

(** C6.  Without a hint the type is guessed by the first rule that matches:
    a number is a double (not an int, not a float), a [Date] a timestamp, a
    64-bit integer a bigint, an arbitrary-precision integer a varint, a
    string a uuid when it has the 8-4-4-4-12 hexadecimal shape in either
    case and a text otherwise, a buffer a blob, an array a list, a boolean a
    boolean; a plain object matches no rule. *)
Theorem guessDataType_rules :
  (forall n, guessDataType (VNumber n) = guessed dataTypes.double)
  /\ dataTypes.double <> dataTypes.int
  /\ dataTypes.double <> dataTypes.float
  /\ (forall t, guessDataType (VDate t) = guessed dataTypes.timestamp)
  /\ (forall z, guessDataType (VLong z) = guessed dataTypes.bigint)
  /\ (forall z, guessDataType (VInteger z) = guessed dataTypes.varint)
  /\ (forall s, (uuid_text s /\ guessDataType (VString s) = guessed dataTypes.uuid)
                \/ (~ uuid_text s
                    /\ guessDataType (VString s) = guessed dataTypes.text))
  /\ (forall b, guessDataType (VBuffer b) = guessed dataTypes.blob)
  /\ (forall items, guessDataType (VArray items) = guessed dataTypes.list)
  /\ (forall b, guessDataType (VBool b) = guessed dataTypes.boolean)
  /\ (forall props, guessDataType (VObject props) = None).
Proof.
  repeat split; try discriminate.
  intros s; unfold guessDataType.
  destruct (uuid_regex_test s) eqn:Hs.
  - left; split; [apply uuid_regex_test_spec; exact Hs | reflexivity].
  - right; split; [| reflexivity].
    intros H; apply uuid_regex_test_spec in H; congruence.
Qed.

(** ** Big-endian octets *)

Lemma be_split_length (n : nat) (z : Z) : List.length (be_split n z) = n.
Proof. induction n; simpl; congruence. Qed.

Lemma be_split_range (n : nat) (z : Z) :
  Forall (fun x => 0 <= x < 256) (be_split n z).
Proof.
  induction n; simpl; constructor; [apply Z.mod_pos_bound; lia | assumption].
Qed.

Lemma fold_be_split (n : nat) (z acc : Z) :
  fold_left (fun a x => a * 256 + x) (be_split n z) acc
  = acc * 256 ^ Z.of_nat n + z mod 256 ^ Z.of_nat n.
Proof.
  revert acc; induction n as [| k IH]; intros acc.
  - simpl; rewrite Z.mod_1_r; lia.
  - cbn [be_split fold_left]; rewrite IH.
    rewrite Nat2Z.inj_succ, Z.pow_succ_r by lia.
    rewrite (Z.mul_comm 256 (256 ^ Z.of_nat k)).
    rewrite (Z.rem_mul_r z (256 ^ Z.of_nat k) 256) by lia.
    ring.
Qed.

Lemma be_combine_split (n : nat) (z : Z) :
  be_combine (be_split n z) = z mod 256 ^ Z.of_nat n.
Proof. unfold be_combine; rewrite fold_be_split; lia. Qed.

Lemma be_combine_split_small (n : nat) (z : Z) :
  0 <= z < 256 ^ Z.of_nat n -> be_combine (be_split n z) = z.
Proof. intros Hz; rewrite be_combine_split; apply Z.mod_small; exact Hz. Qed.

Lemma be_signed_split (n : nat) (z : Z) :
  (0 < n)%nat ->
  - (256 ^ Z.of_nat n) <= 2 * z < 256 ^ Z.of_nat n ->
  be_signed (be_split n (z mod 256 ^ Z.of_nat n)) = z.
Proof.
  intros Hn Hz; unfold be_signed, len.
  rewrite be_split_length, be_combine_split, Z.mod_mod by lia.
  set (w := 256 ^ Z.of_nat n) in *.
  assert (Hw : 0 < w) by (apply Z.pow_pos_nonneg; lia).
  destruct (Z_lt_le_dec z 0) as [Hneg | Hpos].
  - replace (z mod w) with (z + w)
      by (apply Z.mod_unique with (q := -1); lia).
    case_cmp; lia.
  - rewrite Z.mod_small by lia.
    case_cmp; lia.
Qed.

Lemma slice_all (b : buffer) (n : Z) : len b = n -> slice b 0 n = b.
Proof.
  intros <-; unfold slice, len; simpl.
  rewrite Z.sub_0_r, Nat2Z.id; apply firstn_all.
Qed.

Lemma len_be_split (n : nat) (z : Z) : len (be_split n z) = Z.of_nat n.
Proof. unfold len; rewrite be_split_length; reflexivity. Qed.

(** ** Binary floating point: normalisation of exact values *)

Lemma digits2_pos_size (m : positive) : digits2_pos m = Pos.size m.
Proof. induction m; simpl; congruence. Qed.

Lemma digits_log2 (m : positive) : digits m = Z.log2 (Zpos m) + 1.
Proof.
  unfold digits; rewrite digits2_pos_size.
  destruct m; simpl; rewrite ?Pos2Z.inj_succ; lia.
Qed.

Lemma digits_bounds (m : positive) :
  2 ^ (digits m - 1) <= Zpos m < 2 ^ digits m.
Proof.
  rewrite digits_log2.
  replace (Z.log2 (Z.pos m) + 1 - 1) with (Z.log2 (Z.pos m)) by lia.
  apply Z.log2_spec; lia.
Qed.

Lemma digits_pos (m : positive) : 0 < digits m.
Proof. unfold digits; lia. Qed.

Lemma digits_lt_pow2 (m : positive) (k : Z) :
  0 <= k -> (Zpos m < 2 ^ k <-> digits m <= k).
Proof.
  intros Hk; rewrite digits_log2, (Z.log2_lt_pow2 (Zpos m) k) by lia; lia.
Qed.

Lemma iter_xO_mul (m k : positive) :
  Zpos (Pos.iter xO m k) = Zpos m * 2 ^ Zpos k.
Proof.
  induction k as [| k IH] using Pos.peano_ind.
  - cbn [Pos.iter]; rewrite Pos2Z.inj_xO, Z.pow_1_r; lia.
  - rewrite Pos.iter_succ, Pos2Z.inj_succ, Z.pow_succ_r by lia.
    rewrite Pos2Z.inj_xO, IH; ring.
Qed.

Lemma shl_mul (m : positive) (k : Z) :
  0 <= k -> Zpos (shl m k) = Zpos m * 2 ^ k.
Proof.
  destruct k as [| p | p]; simpl shl; intros Hk; [lia | | lia].
  apply iter_xO_mul.
Qed.

Lemma digits_shl (m : positive) (k : Z) :
  0 <= k -> digits (shl m k) = digits m + k.
Proof.
  intros Hk; rewrite !digits_log2, shl_mul by exact Hk.
  rewrite Z.log2_mul_pow2 by lia; lia.
Qed.

Lemma iter_pos_iter {A : Type} (f : A -> A) (n : positive) (x : A) :
  iter_pos f n x = Pos.iter f x n.
Proof.
  revert x; induction n as [n IH | n IH |]; intros x; simpl.
  - rewrite !IH, !Pos.iter_swap; reflexivity.
  - rewrite !IH; reflexivity.
  - reflexivity.
Qed.

Lemma shr_1_iter_xO (k m : positive) :
  Pos.iter shr_1 (exact_record (Pos.iter xO m k)) k = exact_record m.
Proof.
  induction k as [| k IH] using Pos.peano_ind.
  - reflexivity.
  - rewrite Pos.iter_succ_r, Pos.iter_succ; exact IH.
Qed.

Section Rounding.
Variables prec emax : Z.

Lemma binary_round_aux_canonical (s : bool) (m : positive) (e : Z) :
  fexp prec emax (digits m + e) = e ->
  e <= emax - prec ->
  binary_round_aux prec emax s (Zpos m) e loc_Exact = S754_finite s m e.
Proof.
  intros Hcanon Hmax.
  unfold binary_round_aux, shr_fexp, Zdigits2; fold (digits m).
  rewrite Hcanon, Z.sub_diag.
  cbn [shr shr_record_of_loc shr_m loc_of_shr_record round_nearest_even].
  fold (digits m); rewrite Hcanon, Z.sub_diag.
  cbn [shr shr_record_of_loc shr_m].
  destruct (Z.leb_spec e (emax - prec)); [reflexivity | lia].
Qed.

(** A mantissa with too few digits is shifted left, exactly. *)
Lemma binary_round_shl (s : bool) (m : positive) (e : Z) :
  fexp prec emax (digits m + e) <= e ->
  fexp prec emax (digits m + e) <= emax - prec ->
  binary_round prec emax s m e
  = S754_finite s (shl m (e - fexp prec emax (digits m + e)))
                (fexp prec emax (digits m + e)).
Proof.
  intros Hle Hmax; unfold binary_round, shl_align; fold (digits m).
  set (e' := fexp prec emax (digits m + e)) in *.
  destruct (e' - e) as [| p | p] eqn:Hd.
  - replace (e - e') with 0 by lia; replace e with e' at 1 by lia; simpl shl.
    apply binary_round_aux_canonical; [| exact Hmax].
    replace (digits m + e') with (digits m + e) by lia; reflexivity.
  - lia.
  - replace (e - e') with (Zpos p) by lia; simpl shl.
    apply binary_round_aux_canonical; [| exact Hmax].
    change (Pos.iter xO m p) with (shl m (Zpos p)).
    rewrite digits_shl by lia.
    replace (digits m + Z.pos p + e') with (digits m + e) by lia; reflexivity.
Qed.

(** A mantissa with too many digits, the excess ones zero, is shifted right,
    exactly. *)
Lemma binary_round_shr (s : bool) (m : positive) (k e : Z) :
  0 <= k ->
  fexp prec emax (digits m + k + e) = e + k ->
  e + k <= emax - prec ->
  binary_round prec emax s (shl m k) e = S754_finite s m (e + k).
Proof.
  intros Hk Hcanon Hmax.
  destruct k as [| p | p]; [| | lia].
  - simpl shl; rewrite Z.add_0_r in *.
    rewrite binary_round_shl; rewrite Hcanon; try lia.
    rewrite Z.add_0_r, Z.sub_diag; reflexivity.
  - unfold binary_round, shl_align.
    fold (digits (shl m (Zpos p))); rewrite digits_shl by lia; rewrite Hcanon.
    replace (e + Z.pos p - e) with (Zpos p) by lia.
    unfold binary_round_aux, shr_fexp, Zdigits2.
    fold (digits (shl m (Zpos p))); rewrite digits_shl by lia; rewrite Hcanon.
    replace (e + Z.pos p - e) with (Zpos p) by lia.
    unfold shr; rewrite iter_pos_iter.
    change (shr_record_of_loc (Z.pos (shl m (Z.pos p))) loc_Exact)
      with (exact_record (Pos.iter xO m p)).
    rewrite shr_1_iter_xO.
    unfold exact_record.
    cbn [shr_m loc_of_shr_record round_nearest_even shr_record_of_loc].
    fold (digits m).
    replace (digits m + (e + Z.pos p)) with (digits m + Z.pos p + e) by lia.
    rewrite Hcanon, Z.sub_diag.
    cbn [shr_m].
    destruct (Z.leb_spec (e + Z.pos p) (emax - prec)); [reflexivity | lia].
Qed.

Lemma round_to_finite (s : bool) (m : positive) (e : Z) :
  round_to prec emax (S754_finite s m e) = binary_round prec emax s m e.
Proof. destruct s; reflexivity. Qed.
End Rounding.

(** ** Integers as numbers *)

Lemma binary_round_integer (s : bool) (m : positive) :
  digits m <= 53 ->
  binary_round prec64 emax64 s m 0
  = S754_finite s (shl m (53 - digits m)) (digits m - 53).
Proof.
  intros Hd; pose proof (digits_pos m) as Hpos.
  assert (Hf : fexp prec64 emax64 (digits m + 0) = digits m - 53)
    by (unfold fexp, emin, prec64, emax64; lia).
  rewrite binary_round_shl; rewrite Hf; try (unfold prec64, emax64; lia).
  f_equal; f_equal; lia.
Qed.

Lemma number_of_Z_cases (z : Z) :
  safe_integer z ->
  z = 0 /\ number_of_Z z = S754_zero false
  \/ exists (m : positive) (j : Z),
       0 <= j /\ z = cond_Zopp (z <? 0) (Zpos m)
       /\ number_of_Z z = S754_finite (z <? 0) (shl m j) (- j).
Proof.
  unfold safe_integer; intros Hz; destruct z as [| m | m].
  - left; split; reflexivity.
  - right; exists m, (53 - digits m).
    assert (Hd : digits m <= 53) by (apply digits_lt_pow2; lia).
    repeat split; [lia |].
    unfold number_of_Z, binary_normalize; rewrite binary_round_integer by exact Hd.
    f_equal; lia.
  - right; exists m, (53 - digits m).
    assert (Hd : digits m <= 53) by (apply digits_lt_pow2; lia).
    repeat split; [lia |].
    unfold number_of_Z, binary_normalize; rewrite binary_round_integer by exact Hd.
    f_equal; lia.
Qed.

Lemma shl_div (m : positive) (j : Z) :
  0 <= j ->
  (if 0 <=? - j then Zpos (shl m j) * 2 ^ (- j) else Zpos (shl m j) / 2 ^ (- - j))
  = Zpos m.
Proof.
  intros Hj; destruct (Z.leb_spec 0 (- j)).
  - replace j with 0 by lia; simpl; lia.
  - rewrite Z.opp_involutive, shl_mul by lia.
    apply Z.div_mul; apply Z.pow_nonzero; lia.
Qed.

Lemma number_trunc_of_Z (z : Z) :
  safe_integer z -> number_trunc (number_of_Z z) = Some z.
Proof.
  intros Hz; destruct (number_of_Z_cases z Hz) as [[-> ->] | (m & j & Hj & Hm & ->)].
  - reflexivity.
  - unfold number_trunc; rewrite shl_div by exact Hj; congruence.
Qed.

Lemma number_isNaN_of_Z (z : Z) :
  safe_integer z -> number_isNaN (number_of_Z z) = false.
Proof.
  intros Hz; destruct (number_of_Z_cases z Hz) as [[-> ->] | (m & j & Hj & Hm & ->)];
    reflexivity.
Qed.

Lemma scaled_compare (x a j : Z) :
  0 <= j ->
  (x * 2 ^ j <? a * 2 ^ j) = (x <? a).
Proof.
  intros Hj; assert (Hp : 0 < 2 ^ j) by (apply Z.pow_pos_nonneg; lia).
  destruct (Z.ltb_spec x a), (Z.ltb_spec (x * 2 ^ j) (a * 2 ^ j));
    try reflexivity; nia.
Qed.

Lemma cond_Zopp_mul (s : bool) (x y : Z) :
  cond_Zopp s (x * y) = cond_Zopp s x * y.
Proof. destruct s; simpl; ring. Qed.

Lemma number_ltb_of_Z (z a : Z) :
  safe_integer z -> number_ltb_Z (number_of_Z z) a = (z <? a).
Proof.
  intros Hz; destruct (number_of_Z_cases z Hz) as [[-> ->] | (m & j & Hj & Hm & ->)].
  - reflexivity.
  - unfold number_ltb_Z; rewrite shl_mul, cond_Zopp_mul, <- Hm by exact Hj.
    destruct (Z.leb_spec 0 (- j)).
    + replace j with 0 by lia; simpl; rewrite !Z.mul_1_r; reflexivity.
    + rewrite Z.opp_involutive; apply scaled_compare; exact Hj.
Qed.

Lemma number_gtb_of_Z (z a : Z) :
  safe_integer z -> number_gtb_Z (number_of_Z z) a = (z >? a).
Proof.
  intros Hz; destruct (number_of_Z_cases z Hz) as [[-> ->] | (m & j & Hj & Hm & ->)].
  - reflexivity.
  - unfold number_gtb_Z; rewrite shl_mul, cond_Zopp_mul, <- Hm by exact Hj.
    rewrite !Z.gtb_ltb.
    destruct (Z.leb_spec 0 (- j)).
    + replace j with 0 by lia; simpl; rewrite !Z.mul_1_r; reflexivity.
    + rewrite Z.opp_involutive; apply scaled_compare; exact Hj.
Qed.

Lemma int32_safe (z : Z) : int32 z -> safe_integer z.
Proof. unfold int32, safe_integer; lia. Qed.

Lemma writeInt32BE_of_Z (z : Z) :
  int32 z -> writeInt32BE (number_of_Z z) = Ok (be_split 4 (z mod 2 ^ 32)).
Proof.
  intros Hz; pose proof (int32_safe z Hz) as Hs; unfold int32 in Hz.
  unfold writeInt32BE, ToUint32.
  rewrite number_gtb_of_Z, number_ltb_of_Z, number_trunc_of_Z by exact Hs.
  case_cmp; try lia; reflexivity.
Qed.

Lemma readInt32BE_split (z : Z) :
  int32 z -> readInt32BE (be_split 4 (z mod 2 ^ 32)) = Ok (number_of_Z z).
Proof.
  intros Hz; unfold int32 in Hz; unfold readInt32BE.
  rewrite len_be_split; simpl (4 >? _).
  rewrite slice_all by apply len_be_split.
  change (2 ^ 32) with (256 ^ Z.of_nat 4).
  rewrite be_signed_split; [reflexivity | lia |].
  change (256 ^ Z.of_nat 4) with (2 ^ 32); lia.
Qed.

(** ** Interchange layouts *)

Lemma bit_fields (sg b m p e2 : Z) :
  0 < p -> 0 < e2 -> 0 <= sg < 2 -> 0 <= b < e2 -> 0 <= m < p ->
  ((sg * e2 * p + b * p + m) / (e2 * p)) mod 2 = sg
  /\ ((sg * e2 * p + b * p + m) / p) mod e2 = b
  /\ (sg * e2 * p + b * p + m) mod p = m.
Proof.
  intros Hp He Hs Hb Hm.
  assert (H1 : (sg * e2 * p + b * p + m) / p = sg * e2 + b)
    by (symmetry; apply Z.div_unique with (r := m); [lia | ring]).
  assert (H2 : (sg * e2 * p + b * p + m) / (e2 * p) = sg)
    by (symmetry; apply Z.div_unique with (r := b * p + m); [nia | ring]).
  rewrite H1, H2; repeat split.
  - apply Z.mod_small; lia.
  - symmetry; apply Z.mod_unique with (q := sg); [lia | ring].
  - symmetry; apply Z.mod_unique with (q := sg * e2 + b); [lia | ring].
Qed.

Section LayoutFacts.
Variables prec emax : Z.
Hypothesis Hprec : 2 <= prec.
Hypothesis Hemax : 1 <= emax.

Lemma sign_bit_fields (s : bool) :
  sign_bit prec emax s = (if s then 1 else 0) * (2 * emax) * 2 ^ (prec - 1)
  /\ 0 <= (if s then 1 else 0) < 2
  /\ ((if s then 1 else 0) =? 1) = s.
Proof. unfold sign_bit; destruct s; repeat split; lia. Qed.

Lemma pow_prec_pos : 0 < 2 ^ (prec - 1).
Proof. apply Z.pow_pos_nonneg; lia. Qed.

Lemma pow_prec_half : 0 < 2 ^ (prec - 2) < 2 ^ (prec - 1).
Proof.
  split; [apply Z.pow_pos_nonneg; lia | apply Z.pow_lt_mono_r; lia].
Qed.

(** A valid finite value is subnormal, with the least exponent, or normal,
    with exactly [prec] digits. *)
Lemma bounded_cases (m : positive) (e : Z) :
  bounded prec emax m e = true ->
  Zpos m < 2 ^ (prec - 1) /\ e = 3 - emax - prec
  \/ 2 ^ (prec - 1) <= Zpos m < 2 * 2 ^ (prec - 1)
     /\ 3 - emax - prec <= e <= emax - prec.
Proof.
  unfold bounded, canonical_mantissa; fold (digits m); intros H.
  apply andb_prop in H; destruct H as [Hc Hb].
  apply Z.eqb_eq in Hc; apply Z.leb_le in Hb.
  unfold fexp, emin in Hc.
  pose proof (digits_lt_pow2 m (prec - 1)) as H1.
  pose proof (digits_lt_pow2 m prec) as H2.
  replace (2 ^ prec) with (2 * 2 ^ (prec - 1)) in H2
    by (rewrite <- Z.pow_succ_r by lia; f_equal; lia).
  destruct (Z_lt_le_dec (Zpos m) (2 ^ (prec - 1))) as [Hsub | Hnorm].
  - left; split; [exact Hsub |].
    assert (digits m <= prec - 1) by (apply H1; lia); lia.
  - right.
    assert (~ digits m <= prec - 1) by (intros Hd; apply H1 in Hd; lia).
    assert (digits m <= prec) by lia.
    split; [split; [exact Hnorm | apply H2; lia] | lia].
Qed.

Lemma float_bits_fields (x : spec_float) :
  valid_binary prec emax x = true ->
  exists sg b m,
    float_bits prec emax x = sg * (2 * emax) * 2 ^ (prec - 1) + b * 2 ^ (prec - 1) + m
    /\ 0 <= sg < 2 /\ 0 <= b < 2 * emax /\ 0 <= m < 2 ^ (prec - 1)
    /\ bits_float prec emax
         (sg * (2 * emax) * 2 ^ (prec - 1) + b * 2 ^ (prec - 1) + m) = x.
Proof.
  pose proof pow_prec_pos as Hp; pose proof pow_prec_half as Hh.
  intros Hvalid; destruct x as [s | s | | s m e]; cbn [float_bits].
  - destruct (sign_bit_fields s) as (-> & Hs & Hsb).
    exists (if s then 1 else 0), 0, 0; repeat split; try lia.
    unfold bits_float.
    destruct (bit_fields (if s then 1 else 0) 0 0 (2 ^ (prec - 1)) (2 * emax))
      as (-> & -> & ->); try lia.
    rewrite Hsb; reflexivity.
  - destruct (sign_bit_fields s) as (-> & Hs & Hsb).
    exists (if s then 1 else 0), (2 * emax - 1), 0; repeat split; try lia.
    unfold bits_float.
    destruct (bit_fields (if s then 1 else 0) (2 * emax - 1) 0 (2 ^ (prec - 1)) (2 * emax))
      as (-> & -> & ->); try lia.
    rewrite Hsb, Z.eqb_refl.
    destruct (Z.eqb_spec (2 * emax - 1) 0); [lia | reflexivity].
  - exists 0, (2 * emax - 1), (2 ^ (prec - 2)); repeat split; try lia.
    unfold bits_float.
    destruct (bit_fields 0 (2 * emax - 1) (2 ^ (prec - 2)) (2 ^ (prec - 1)) (2 * emax))
      as (-> & -> & ->); try lia.
    rewrite Z.eqb_refl.
    destruct (Z.eqb_spec (2 * emax - 1) 0); [lia |].
    destruct (Z.eqb_spec (2 ^ (prec - 2)) 0); [lia | reflexivity].
  - destruct (sign_bit_fields s) as (-> & Hs & Hsb).
    destruct (bounded_cases m e Hvalid) as [[Hsub ->] | [Hnorm He]].
    + destruct (Z.ltb_spec (Zpos m) (2 ^ (prec - 1))); [| lia].
      exists (if s then 1 else 0), 0, (Zpos m); repeat split; try lia.
      unfold bits_float.
      destruct (bit_fields (if s then 1 else 0) 0 (Zpos m) (2 ^ (prec - 1)) (2 * emax))
        as (-> & -> & ->); try lia.
      rewrite Hsb; reflexivity.
    + destruct (Z.ltb_spec (Zpos m) (2 ^ (prec - 1))); [lia |].
      exists (if s then 1 else 0), (e + emax + prec - 2), (Zpos m - 2 ^ (prec - 1)).
      repeat split; try lia.
      unfold bits_float.
      destruct (bit_fields (if s then 1 else 0) (e + emax + prec - 2)
                  (Zpos m - 2 ^ (prec - 1)) (2 ^ (prec - 1)) (2 * emax))
        as (-> & -> & ->); try lia.
      rewrite Hsb.
      destruct (Z.eqb_spec (e + emax + prec - 2) 0); [lia |].
      destruct (Z.eqb_spec (e + emax + prec - 2) (2 * emax - 1)); [lia |].
      replace (Z.pos m - 2 ^ (prec - 1) + 2 ^ (prec - 1)) with (Zpos m) by lia.
      f_equal; lia.
Qed.

Lemma bits_float_bits (x : spec_float) :
  valid_binary prec emax x = true ->
  bits_float prec emax (float_bits prec emax x) = x.
Proof.
  intros Hv; destruct (float_bits_fields x Hv) as (sg & b & m & -> & _ & _ & _ & H).
  exact H.
Qed.

Lemma float_bits_range (x : spec_float) :
  valid_binary prec emax x = true ->
  0 <= float_bits prec emax x < 2 * (2 * emax) * 2 ^ (prec - 1).
Proof.
  intros Hv; destruct (float_bits_fields x Hv) as (sg & b & m & -> & Hs & Hb & Hm & _).
  pose proof pow_prec_pos; nia.
Qed.
End LayoutFacts.

(** ** Doubles and floats on the wire *)

Lemma readDoubleBE_write (n : number) :
  valid_number n = true -> readDoubleBE (writeDoubleBE n) = Ok n.
Proof.
  intros Hv; unfold readDoubleBE, writeDoubleBE, valid_number in *.
  rewrite len_be_split; simpl (8 >? _).
  rewrite slice_all by apply len_be_split.
  pose proof (float_bits_range prec64 emax64 ltac:(unfold prec64; lia)
                ltac:(unfold emax64; lia) n Hv) as Hr.
  rewrite be_combine_split_small by exact Hr.
  rewrite bits_float_bits; unfold prec64, emax64; try lia; try reflexivity.
  exact Hv.
Qed.

Lemma single_canonical (m : positive) (e : Z) :
  bounded prec32 emax32 m e = true ->
  fexp prec32 emax32 (digits m + e) = e /\ e <= 104 /\ -149 <= e /\ digits m <= 24.
Proof.
  unfold bounded, canonical_mantissa; fold (digits m); intros H.
  apply andb_prop in H; destruct H as [Hc Hb].
  apply Z.eqb_eq in Hc; apply Z.leb_le in Hb.
  split; [exact Hc |].
  unfold fexp, emin, prec32, emax32 in *; lia.
Qed.

Lemma round_single_double (f : spec_float) :
  valid_binary prec32 emax32 f = true ->
  round_to prec32 emax32 (round_to prec64 emax64 f) = f.
Proof.
  destruct f as [s | s | | s m e]; try reflexivity; intros Hv.
  destruct (single_canonical m e Hv) as (Hc & Hmax & Hmin & Hd).
  pose proof (digits_pos m) as Hpos.
  rewrite round_to_finite.
  set (e64 := fexp prec64 emax64 (digits m + e)).
  assert (He64 : e64 <= e /\ e64 <= emax64 - prec64)
    by (unfold e64, fexp, emin, prec64, emax64; lia).
  rewrite binary_round_shl; fold e64; try tauto.
  rewrite round_to_finite.
  rewrite (binary_round_shr prec32 emax32 s m (e - e64) e64);
    try (f_equal; lia); try lia.
  - replace (digits m + (e - e64) + e64) with (digits m + e) by lia.
    rewrite Hc; lia.
  - unfold prec32, emax32; lia.
Qed.

Lemma readFloatBE_write (f : spec_float) :
  valid_binary prec32 emax32 f = true ->
  readFloatBE (writeFloatBE (round_to prec64 emax64 f))
  = Ok (round_to prec64 emax64 f).
Proof.
  intros Hv; unfold readFloatBE, writeFloatBE.
  rewrite round_single_double by exact Hv.
  rewrite len_be_split; simpl (4 >? _).
  rewrite slice_all by apply len_be_split.
  pose proof (float_bits_range prec32 emax32 ltac:(unfold prec32; lia)
                ltac:(unfold emax32; lia) f Hv) as Hr.
  rewrite be_combine_split_small by exact Hr.
  rewrite bits_float_bits; unfold prec32, emax32; try lia; try reflexivity.
  exact Hv.
Qed.

(** ** 64-bit and arbitrary-precision integers on the wire *)

Lemma Long_fromBuffer_toBuffer (z : Z) :
  int64 z -> Long_fromBuffer (Long_toBuffer z) = Ok z.
Proof.
  unfold int64, Long_min, Long_max, Long_fromBuffer, Long_toBuffer; intros Hz.
  rewrite len_be_split; simpl (8 >? _).
  rewrite slice_all by apply len_be_split.
  change (2 ^ 64) with (256 ^ Z.of_nat 8).
  rewrite be_signed_split; [reflexivity | lia |].
  change (256 ^ Z.of_nat 8) with (2 ^ 64); lia.
Qed.

Lemma Integer_size_fits (z : Z) :
  (0 < Integer_size z)%nat
  /\ - (256 ^ Z.of_nat (Integer_size z)) <= 2 * z < 256 ^ Z.of_nat (Integer_size z).
Proof.
  unfold Integer_size.
  set (y := if z <? 0 then - z - 1 else z).
  assert (Hy : 0 <= y) by (unfold y; destruct (Z.ltb_spec z 0); lia).
  pose proof (Z.log2_nonneg y) as Hl.
  set (n := (Z.log2 y + 1) / 8 + 1).
  assert (Hn : 1 <= n) by (unfold n; pose proof (Z.div_pos (Z.log2 y + 1) 8); lia).
  split; [lia |].
  rewrite Z2Nat.id by lia.
  replace (256 ^ n) with (2 ^ (8 * n))
    by (rewrite Z.pow_mul_r by lia; reflexivity).
  assert (Hbits : Z.log2 y + 1 <= 8 * n - 1).
  { unfold n; pose proof (Z.mod_pos_bound (Z.log2 y + 1) 8);
      pose proof (Z.div_mod (Z.log2 y + 1) 8); lia. }
  assert (Hlt : y < 2 ^ (8 * n - 1)).
  { destruct (Z.eq_dec y 0) as [-> | Hne].
    - apply Z.pow_pos_nonneg; lia.
    - apply Z.log2_lt_pow2; lia. }
  replace (2 ^ (8 * n)) with (2 * 2 ^ (8 * n - 1))
    by (rewrite <- Z.pow_succ_r by lia; f_equal; lia).
  unfold y in Hlt; destruct (Z.ltb_spec z 0); lia.
Qed.

Lemma Integer_fromBuffer_toBuffer (z : Z) :
  Integer_fromBuffer (Integer_toBuffer z) = z.
Proof.
  unfold Integer_fromBuffer, Integer_toBuffer.
  destruct (Integer_size_fits z) as [Hn Hz].
  apply be_signed_split; assumption.
Qed.

(** ** Timestamps *)

Lemma time_value_safe (ms : Z) : time_value ms -> safe_integer ms.
Proof. unfold time_value, safe_integer; lia. Qed.

Lemma TimeClip_of_Z (ms : Z) :
  time_value ms -> TimeClip (number_of_Z ms) = number_of_Z ms.
Proof.
  intros Ht; unfold TimeClip.
  rewrite number_trunc_of_Z by (apply time_value_safe; exact Ht).
  unfold time_value in Ht.
  destruct (Z.leb_spec (Z.abs ms) 8640000000000000); [reflexivity | lia].
Qed.

Lemma Long_fromNumber_of_Z (z : Z) :
  safe_integer z -> Long_fromNumber (number_of_Z z) = z.
Proof.
  intros Hz; unfold Long_fromNumber; rewrite number_trunc_of_Z by exact Hz.
  unfold safe_integer, Long_min, Long_max in *; lia.
Qed.

(** ** Text on the wire *)

Ltac split_cmp :=
  repeat (match goal with
          | |- context [?a <=? ?b] => destruct (Z.leb_spec a b)
          | |- context [?a <? ?b] => destruct (Z.ltb_spec a b)
          end;
          try (exfalso; Z.div_mod_to_equations; lia)).

Lemma utf8_decode_1 (c : Z) (r : buffer) :
  0 <= c < 128 -> utf8_decode (c :: r) = c :: utf8_decode r.
Proof. intros Hc; cbn [utf8_decode]; split_cmp; reflexivity. Qed.

Lemma utf8_decode_2 (c : Z) (r : buffer) :
  128 <= c < 2048 -> utf8_decode (utf8_2 c ++ r) = c :: utf8_decode r.
Proof.
  intros Hc; unfold utf8_2; cbn [app utf8_decode]; unfold is_continuation.
  split_cmp; cbn [andb]; f_equal; Z.div_mod_to_equations; lia.
Qed.

Lemma utf8_decode_3 (c : Z) (r : buffer) :
  2048 <= c < 55296 \/ 57344 <= c <= 65535 ->
  utf8_decode (utf8_3 c ++ r) = c :: utf8_decode r.
Proof.
  intros Hc; unfold utf8_3; cbn [app utf8_decode].
  replace (c / 4096) with (c / 64 / 64) by (rewrite Z.div_div by lia; reflexivity).
  set (cp := (224 + c / 64 / 64 - 224) * 4096
             + (128 + (c / 64) mod 64 - 128) * 64 + (128 + c mod 64 - 128)).
  assert (Hcp : cp = c) by (unfold cp; Z.div_mod_to_equations; lia).
  rewrite Hcp; clear cp Hcp.
  unfold is_continuation, is_high_surrogate, is_low_surrogate.
  split_cmp; cbn [andb orb negb]; reflexivity.
Qed.

Lemma utf8_decode_4 (cp : Z) (r : buffer) :
  65536 <= cp <= 1114111 ->
  utf8_decode (utf8_4 cp ++ r) = code_units cp ++ utf8_decode r.
Proof.
  intros Hc; unfold utf8_4; cbn [app utf8_decode].
  replace (cp / 262144) with (cp / 64 / 64 / 64)
    by (rewrite !Z.div_div by lia; reflexivity).
  replace (cp / 4096) with (cp / 64 / 64) by (rewrite Z.div_div by lia; reflexivity).
  set (cp4 := (240 + cp / 64 / 64 / 64 - 240) * 262144
              + (128 + (cp / 64 / 64) mod 64 - 128) * 4096
              + (128 + (cp / 64) mod 64 - 128) * 64 + (128 + cp mod 64 - 128)).
  assert (Hcp : cp4 = cp) by (unfold cp4; Z.div_mod_to_equations; lia).
  rewrite Hcp; clear cp4 Hcp.
  set (cp3 := (240 + cp / 64 / 64 / 64 - 224) * 4096
              + (128 + (cp / 64 / 64) mod 64 - 128) * 64
              + (128 + (cp / 64) mod 64 - 128)).
  clearbody cp3.
  unfold is_continuation, is_high_surrogate, is_low_surrogate.
  split_cmp; cbn [andb orb negb]; reflexivity.
Qed.

Lemma code_units_pair (h l : Z) :
  is_high_surrogate h = true -> is_low_surrogate l = true ->
  65536 <= 65536 + (h - 55296) * 1024 + (l - 56320) <= 1114111
  /\ code_units (65536 + (h - 55296) * 1024 + (l - 56320)) = [h; l].
Proof.
  unfold is_high_surrogate, is_low_surrogate, code_units; intros Hh Hl.
  apply andb_prop in Hh, Hl; destruct Hh as [Hh1 Hh2], Hl as [Hl1 Hl2].
  apply Z.leb_le in Hh1, Hh2, Hl1, Hl2.
  split; [lia |].
  destruct (Z.ltb_spec (65536 + (h - 55296) * 1024 + (l - 56320)) 65536); [lia |].
  f_equal; [| f_equal]; Z.div_mod_to_equations; lia.
Qed.

Lemma utf8_roundtrip (s : jsstring) :
  well_formed s -> utf8_decode (utf8_encode s) = s.
Proof.
  induction 1 as [| c s Hc _ IH | h l s Hh Hl _ IH].
  - reflexivity.
  - cbn [utf8_encode]; unfold scalar_unit in Hc.
    unfold is_high_surrogate, is_low_surrogate.
    destruct (Z.ltb_spec c 128).
    + rewrite utf8_decode_1 by lia; congruence.
    + destruct (Z.ltb_spec c 2048).
      * rewrite utf8_decode_2 by lia; congruence.
      * split_cmp; cbn [andb]; rewrite utf8_decode_3 by lia; congruence.
  - cbn [utf8_encode]; rewrite Hh, Hl.
    destruct (code_units_pair h l Hh Hl) as [Hrange Hunits].
    unfold is_high_surrogate in Hh; apply andb_prop in Hh; destruct Hh as [Hh1 Hh2].
    apply Z.leb_le in Hh1, Hh2.
    destruct (Z.ltb_spec h 128); [lia |].
    destruct (Z.ltb_spec h 2048); [lia |].
    rewrite utf8_decode_4 by exact Hrange.
    rewrite Hunits, IH; reflexivity.
Qed.

Lemma ascii_roundtrip (s : jsstring) :
  Forall (fun c => 0 <= c < 128) s -> ascii_decode (ascii_encode s) = s.
Proof.
  unfold ascii_decode, ascii_encode; induction 1 as [| c s Hc _ IH]; simpl.
  - reflexivity.
  - rewrite IH, (Z.mod_small c 256), (Z.mod_small c 128) by lia; reflexivity.
Qed.

(** ** UUID text *)

Lemma hex_value_digit (d : Z) :
  0 <= d < 16 -> hex_value (hex_digit d) = Some d.
Proof.
  intros Hd; unfold hex_value, hex_digit.
  destruct (Z.ltb_spec d 10); split_cmp; cbn [andb]; f_equal; lia.
Qed.

Lemma hex_pairs_octet (x : Z) (rest : jsstring) :
  octet x ->
  hex_pairs (hex_digit (x / 16) :: hex_digit (x mod 16) :: rest)
  = x :: hex_pairs rest.
Proof.
  unfold octet; intros Hx; cbn [hex_pairs].
  rewrite !hex_value_digit by (Z.div_mod_to_equations; lia).
  f_equal; Z.div_mod_to_equations; lia.
Qed.

Lemma hex_pairs_dash (c : Z) (rest : jsstring) :
  hex_pairs (45 :: c :: rest) = hex_pairs (c :: rest).
Proof. reflexivity. Qed.

Lemma uuid_parse_unparse (b : buffer) :
  List.length b = 16%nat -> Forall octet b ->
  uuid_parse (uuid_unparse b) = b.
Proof.
  intros Hlen Hb.
  do 16 (destruct b as [| ? b]; [discriminate |]).
  destruct b; [| discriminate].
  repeat match goal with
         | H : Forall _ (_ :: _) |- _ => inversion_clear H
         end.
  unfold uuid_parse, uuid_unparse; cbn [nth_error byteToHex app dash].
  repeat first [rewrite hex_pairs_octet by assumption | rewrite hex_pairs_dash].
  reflexivity.
Qed.

(** ** Encoding under the int hint *)

Lemma encode_int (fuel : nat) (v : value) (h : hint) (subs : option (list hint)) :
  resolve rt v h = Ok (dataTypes.int, subs) ->
  is_absent v = false ->
  encode rt fuel v h = encodeInt rt v.
Proof.
  intros Hres Habs; rewrite encode_unfold, Hres.
  destruct v; try discriminate; reflexivity.
Qed.

(** C7, amended.  Under a hint that resolves to int, the value is coerced to
    a number: when the coercion is NaN -- a NaN, a string that is not
    numeric -- [encode] throws a type error; when it is an integer of the
    signed 32-bit range -- such a number, a decimal or [0x] string that
    denotes one -- [encode] returns its four big-endian two's-complement
    octets. *)
Theorem encode_int_coerced :
  forall (fuel : nat) (v : value) (h : hint) (subs : option (list hint)),
    resolve rt v h = Ok (dataTypes.int, subs) ->
    is_absent v = false ->
    (number_isNaN (ToNumber rt v) = true ->
     exists msg, encode rt fuel v h = Throw (TypeError msg))
    /\ (forall z, ToNumber rt v = number_of_Z z -> int32 z ->
        exists b, encode rt fuel v h = Ok (Some b)
                  /\ List.length b = 4%nat
                  /\ Forall octet b
                  /\ be_signed b = z).
Proof.
  intros fuel v h subs Hres Habs; rewrite (encode_int fuel v h subs Hres Habs).
  unfold encodeInt, isNaN; split.
  - intros ->; eexists; reflexivity.
  - intros z -> Hz.
    rewrite number_isNaN_of_Z by (apply int32_safe; exact Hz).
    rewrite writeInt32BE_of_Z by exact Hz; cbn [bind].
    exists (be_split 4 (z mod 2 ^ 32)); repeat split.
    + apply be_split_range.
    + unfold int32 in Hz; change (2 ^ 32) with (256 ^ Z.of_nat 4).
      apply be_signed_split; [lia |].
      change (256 ^ Z.of_nat 4) with (2 ^ 32); lia.
Qed.

(** ** Round trip of the scalar types *)

Lemma classify_code_of (t : dataType) : classify (code_of t) = Some t.
Proof. destruct t; reflexivity. Qed.

Lemma canonical_present (t : dataType) (v : value) :
  canonical t v -> is_absent v = false.
Proof.
  destruct t; simpl; intros H; try contradiction;
    repeat match goal with
           | H : exists _, _ |- _ => destruct H
           | H : _ /\ _ |- _ => destruct H
           end; subst; reflexivity.
Qed.

(** Whatever its shape, a hint that names a scalar type selects that type's
    encoder; the code [custom], being zero, is taken for no hint, and a
    buffer is then guessed to be a blob, which has the same encoder. *)
Lemma resolve_names (t : dataType) (v : value) (h : hint) :
  names rt t h -> canonical t v ->
  exists code subs,
    resolve rt v h = Ok (code, subs)
    /\ (classify code = Some t \/ t = DCustom /\ classify code = Some DBlob).
Proof.
  intros [-> | [[subs ->] | (name & subs & -> & Hname & Hget)]] Hcan.
  - destruct t; simpl in Hcan; try contradiction;
      try (eexists; eexists; split; [reflexivity | left; reflexivity]).
    destruct Hcan as [b ->].
    eexists; eexists; split; [reflexivity | right; split; reflexivity].
  - exists (code_of t), subs; split; [reflexivity | left; apply classify_code_of].
  - exists (code_of t), subs; split; [| left; apply classify_code_of].
    unfold resolve; destruct name; [contradiction Hname; reflexivity |].
    cbn [hint_truthy]; rewrite Hget; reflexivity.
Qed.

Lemma decode_scalar (t : dataType) (bytes : buffer) :
  decode rt (Some bytes) (descriptor t)
  = decode_with rt (decodeElement rt) (Some bytes) (Desc (code_of t) NoSub).
Proof. reflexivity. Qed.

(** C1, amended.  For every scalar type of the catalog, every hint that
    names it and every host value in the form in which [decode] yields the
    values of that type, encoding succeeds and decoding the result against
    the type's descriptor gives the value back. *)
Theorem decode_encode_canonical :
  forall (fuel : nat) (t : dataType) (v : value) (h : hint),
    is_scalar t = true ->
    canonical t v ->
    names rt t h ->
    exists bytes,
      encode rt fuel v h = Ok (Some bytes)
      /\ decode rt (Some bytes) (descriptor t) = Ok v.
Proof.
  intros fuel t v h Hscalar Hcan Hnames.
  destruct (resolve_names t v h Hnames Hcan) as (code & subs & Hres & Hcode).
  rewrite encode_unfold, Hres; cbn [bind fst snd].
  unfold decode, descriptor, decode_with; cbn [desc_code].
  rewrite classify_code_of.
  destruct Hcode as [Hc | [-> Hc]]; rewrite Hc; [| destruct Hcan as [b ->]].
  2: { eexists; split; reflexivity. }
  clear Hc; destruct t; try discriminate; cbn [canonical] in Hcan;
    repeat match goal with
           | H : exists _, _ |- _ => destruct H
           | H : _ /\ _ |- _ => destruct H
           end; subst v; cbv iota.
  all: try (eexists; split; reflexivity).
  - (* ascii *)
    eexists; split; [reflexivity |].
    rewrite ascii_roundtrip by assumption; reflexivity.
  - (* bigint *)
    eexists; split; [reflexivity |].
    rewrite Long_fromBuffer_toBuffer by assumption; reflexivity.
  - (* boolean *)
    eexists; split; [reflexivity |].
    destruct x; reflexivity.
  - (* counter *)
    eexists; split; [reflexivity |].
    rewrite Long_fromBuffer_toBuffer by assumption; reflexivity.
  - (* double *)
    eexists; split; [reflexivity |].
    rewrite readDoubleBE_write by assumption; reflexivity.
  - (* float *)
    eexists; split; [reflexivity |].
    rewrite readFloatBE_write by assumption; reflexivity.
  - (* int *)
    unfold encodeInt, isNaN, ToNumber.
    rewrite number_isNaN_of_Z by (apply int32_safe; assumption).
    rewrite writeInt32BE_of_Z by assumption; cbn [bind].
    eexists; split; [reflexivity |].
    rewrite readInt32BE_split by assumption; reflexivity.
  - (* text *)
    eexists; split; [reflexivity |].
    rewrite utf8_roundtrip by assumption; reflexivity.
  - (* timestamp *)
    unfold encodeTimestamp.
    rewrite number_isNaN_of_Z by (apply time_value_safe; assumption).
    cbn [bind]; unfold encodeBigNumber; cbn [bind].
    rewrite Long_fromNumber_of_Z by (apply time_value_safe; assumption).
    eexists; split; [reflexivity |].
    rewrite Long_fromBuffer_toBuffer; cbn [bind].
    + unfold Long_toNumber; rewrite TimeClip_of_Z by assumption; reflexivity.
    + match goal with H : time_value _ |- _ => unfold time_value in H end.
      unfold int64, Long_min, Long_max; lia.
  - (* uuid *)
    eexists; split; [reflexivity |].
    cbn [encodeUuid]; rewrite uuid_parse_unparse by assumption; reflexivity.
  - (* varchar *)
    eexists; split; [reflexivity |].
    rewrite utf8_roundtrip by assumption; reflexivity.
  - (* varint *)
    eexists; split; [reflexivity |].
    rewrite Integer_fromBuffer_toBuffer; reflexivity.
  - (* timeuuid *)
    eexists; split; [reflexivity |].
    cbn [encodeUuid]; rewrite uuid_parse_unparse by assumption; reflexivity.
Qed.

(** * Further properties of the codec *)

(** ** Hints that select no encoder *)

Lemma classify_unknown (code : Z) :
  (forall t, code_of t <> code) -> classify code = None.
Proof.
  intros Hno; unfold classify.
  destruct (find (fun t => code_of t =? code) all_dataTypes) as [t |] eqn:Hfind;
    [| reflexivity].
  apply find_some in Hfind; destruct Hfind as [_ Heq].
  apply Z.eqb_eq in Heq; contradiction (Hno t Heq).
Qed.

(** X1.  A hint whose numeric code is not in the catalog makes [encode]
    throw the type error "Type not supported", whatever the value, unless
    the value is [null] or [undefined]. *)
Theorem encode_unknown_code_throws :
  forall (fuel : nat) (v : value) (h : hint) (code : Z) (subs : option (list hint)),
    is_absent v = false ->
    resolve rt v h = Ok (code, subs) ->
    (forall t, code_of t <> code) ->
    encode rt fuel v h = Throw not_supported.
Proof.
  intros fuel v h code subs Habs Hres Hno.
  rewrite encode_unfold, Hres; cbn [bind fst].
  rewrite (classify_unknown code Hno).
  destruct v; try discriminate; reflexivity.
Qed.

(** X2.  Decoding bytes against a type tree whose code is not in the
    catalog throws "Unknown data type"; only [null] bytes escape it. *)
Theorem decode_unknown_code_throws :
  forall (bytes : buffer) (code : Z) (sub : subDesc),
    (forall t, code_of t <> code) ->
    decode rt (Some bytes) (Desc code sub) = Throw unknown_type
    /\ decode rt None (Desc code sub) = Ok VNull.
Proof.
  intros bytes code sub Hno; split; [| reflexivity].
  unfold decode, decode_with; cbn [desc_code].
  rewrite (classify_unknown code Hno); reflexivity.
Qed.


(** X3.  With no usable hint, [encode] behaves as under the numeric code
    that [guessDataType] finds for the value. *)
Theorem encode_guessed_as_hinted :
  forall (fuel : nat) (v : value) (h : hint) (code : Z),
    hint_truthy h = false ->
    guessDataType v = guessed code ->
    encode rt fuel v h = encode rt fuel v (HCode code).
Proof.
  intros fuel v h code Hh Hguess.
  assert (Hcode : (code =? 0) = false).
  { unfold guessed in Hguess.
    destruct v; try discriminate; simpl in Hguess;
      try (injection Hguess as <-; reflexivity).
    destruct (uuid_regex_test s); injection Hguess as <-; reflexivity. }
  rewrite !encode_unfold; unfold resolve; rewrite Hh, Hguess.
  cbn [hint_truthy]; rewrite Hcode; reflexivity.
Qed.

(** ** Values of the wrong shape *)

Lemma resolve_named (t : dataType) (v : value) (h : hint) :
  names rt t h -> hint_truthy h = true ->
  exists subs, resolve rt v h = Ok (code_of t, subs).
Proof.
  intros [-> | [[subs ->] | (name & subs & -> & Hname & Hget)]] Hh.
  - exists None; unfold resolve; rewrite Hh; reflexivity.
  - exists subs; reflexivity.
  - exists subs; unfold resolve; rewrite Hh, Hget; reflexivity.
Qed.

Lemma encode_shape_resolved (fuel : nat) (v : value) (h : hint) (code : Z)
  (subs : option (list hint)) (t : dataType) (shape : value -> bool) :
  is_absent v = false ->
  resolve rt v h = Ok (code, subs) ->
  classify code = Some t ->
  required_shape t = Some shape ->
  (shape v = true -> exists b, encode rt fuel v h = Ok (Some b))
  /\ (shape v = false -> exists msg, encode rt fuel v h = Throw (TypeError msg)).
Proof.
  intros Habs Hres Hc Hshape.
  rewrite encode_unfold, Hres; cbn [bind fst]; rewrite Hc.
  destruct t; try discriminate; injection Hshape as <-;
    destruct v; try discriminate; cbn;
    split; intros Hs; try discriminate; eexists; reflexivity.
Qed.

(** X4.  Take a hint that names float, double, text, varchar, ascii, blob,
    custom, decimal, inet, uuid or timeuuid, by its code, by a descriptor
    holding the code or by a name of the catalog, and that [encode] takes
    for a hint, which leaves out the bare code of custom: being zero, it
    counts as no hint.  Under such a hint [encode] returns a buffer exactly
    when the value has the shape the type asks for (a number; a string; a
    buffer; a string or a buffer): any other value that is neither [null]
    nor [undefined], a numeric string under float included, is rejected with
    a type error. *)
Theorem encode_shape_checked :
  forall (fuel : nat) (v : value) (h : hint) (t : dataType) (shape : value -> bool),
    is_absent v = false ->
    names rt t h ->
    hint_truthy h = true ->
    required_shape t = Some shape ->
    (shape v = true -> exists b, encode rt fuel v h = Ok (Some b))
    /\ (shape v = false -> exists msg, encode rt fuel v h = Throw (TypeError msg)).
Proof.
  intros fuel v h t shape Habs Hnames Hh Hshape.
  destruct (resolve_named t v h Hnames Hh) as [subs Hres].
  exact (encode_shape_resolved fuel v h (code_of t) subs t shape Habs Hres
           (classify_code_of t) Hshape).
Qed.

(** X5.  Under a boolean hint nothing is rejected: every value is encoded by
    its truthiness as the single octet 1 or 0, and decodes to that
    boolean. *)
Theorem encode_boolean_truthiness :
  forall (fuel : nat) (v : value) (h : hint) (code : Z) (subs : option (list hint)),
    is_absent v = false ->
    resolve rt v h = Ok (code, subs) ->
    classify code = Some DBoolean ->
    encode rt fuel v h = Ok (Some [if ToBoolean v then 1 else 0])
    /\ decode rt (Some [if ToBoolean v then 1 else 0]) (descriptor DBoolean)
       = Ok (VBool (ToBoolean v)).
Proof.
  intros fuel v h code subs Habs Hres Hc.
  rewrite encode_unfold, Hres; cbn [bind fst]; rewrite Hc.
  split.
  - destruct v; try discriminate; reflexivity.
  - destruct (ToBoolean v); reflexivity.
Qed.

(** X6.  Under every type that takes raw bytes (blob, custom, decimal, inet,
    bigint, counter, timestamp, varint, uuid, timeuuid) a buffer is returned
    as it is: its length is not checked against the width of the type. *)
Theorem encode_buffer_passthrough :
  forall (fuel : nat) (b : buffer) (h : hint) (code : Z) (subs : option (list hint))
         (t : dataType),
    resolve rt (VBuffer b) h = Ok (code, subs) ->
    classify code = Some t ->
    takes_raw_bytes t = true ->
    encode rt fuel (VBuffer b) h = Ok (Some b).
Proof.
  intros fuel b h code subs t Hres Hc Ht.
  rewrite encode_unfold, Hres; cbn [bind fst]; rewrite Hc.
  destruct t; try discriminate; reflexivity.
Qed.

(** ** Lists and sets on the wire *)

Lemma writeUInt16BE_ok (n : Z) :
  0 <= n <= 65535 -> writeUInt16BE n = Ok (be_split 2 n).
Proof. intros Hn; unfold writeUInt16BE; case_cmp; try lia; reflexivity. Qed.

Lemma writeUInt16BE_over (n : Z) :
  65535 < n -> writeUInt16BE n = Throw out_of_bounds.
Proof. intros Hn; unfold writeUInt16BE; case_cmp; try lia; reflexivity. Qed.

Lemma getLengthBuffer_bytes (b : buffer) :
  framable b -> getLengthBuffer rt (OfBytes (Some b)) = Ok (be_split 2 (len b)).
Proof.
  unfold framable; intros Hb; cbn [getLengthBuffer].
  destruct (Z.eqb_spec (len b) 0); [lia |].
  apply writeUInt16BE_ok; lia.
Qed.

Lemma getLengthBuffer_array (items : list value) :
  0 < len items <= 65535 ->
  getLengthBuffer rt (OfArray items) = Ok (be_split 2 (len items)).
Proof.
  intros Hn; cbn [getLengthBuffer].
  destruct (Z.eqb_spec (len items) 0); [lia |].
  apply writeUInt16BE_ok; lia.
Qed.

Lemma Forall2_len {A B : Type} (P : A -> B -> Prop) (l : list A) (r : list B) :
  Forall2 P l r -> len l = len r.
Proof. intros H; unfold len; rewrite (Forall2_length H); reflexivity. Qed.

Lemma Buffer_concat_frames (bs : list buffer) :
  Buffer_concat (flat_map (fun b => [Some (be_split 2 (len b)); Some b]) bs)
  = Ok (flat_map item_frame bs).
Proof.
  induction bs as [| b rest IH]; [reflexivity |].
  cbn [flat_map app Buffer_concat]; rewrite IH; cbn [bind].
  unfold item_frame; rewrite <- app_assoc; reflexivity.
Qed.

Lemma encodeItems_frames (enc : value -> hint -> result (option buffer))
  (subtype : hint) (items : list value) (bs : list buffer) :
  Forall2 (fun v b => enc v subtype = Ok (Some b) /\ framable b) items bs ->
  encodeItems rt enc subtype items
  = Ok (flat_map (fun b => [Some (be_split 2 (len b)); Some b]) bs).
Proof.
  induction 1 as [| v b items bs [Hv Hb] _ IH]; [reflexivity |].
  cbn [encodeItems]; rewrite Hv; cbn [bind].
  rewrite getLengthBuffer_bytes by exact Hb; cbn [bind].
  rewrite IH; reflexivity.
Qed.

Lemma encode_as_list (fuel : nat) (items : list value) (h : hint) (code : Z)
  (subs : option (list hint)) :
  resolve rt (VArray items) h = Ok (code, subs) ->
  is_list_code code = true ->
  encode rt (S fuel) (VArray items) h
  = encodeList rt (encode rt fuel) (VArray items) subs.
Proof.
  intros Hres Hcode; rewrite encode_unfold, Hres; cbn [bind fst snd].
  unfold is_list_code in Hcode.
  destruct (classify code) as [[] |]; try discriminate; reflexivity.
Qed.

Lemma encodeList_frames_lemma (fuel : nat) (items : list value) (h : hint)
  (code : Z) (subs : option (list hint)) (bs : list buffer) :
  resolve rt (VArray items) h = Ok (code, subs) ->
  is_list_code code = true ->
  0 < len items <= 65535 ->
  Forall2 (fun v b => encode rt fuel v (subtype_at 0 subs) = Ok (Some b)
                      /\ framable b) items bs ->
  encode rt (S fuel) (VArray items) h = Ok (Some (list_wire bs)).
Proof.
  intros Hres Hcode Hn Hitems.
  rewrite (encode_as_list fuel items h code subs Hres Hcode); unfold encodeList.
  destruct (Z.eqb_spec (len items) 0); [lia |].
  rewrite getLengthBuffer_array by exact Hn; cbn [bind].
  rewrite (encodeItems_frames _ _ _ bs Hitems); cbn [bind Buffer_concat].
  rewrite Buffer_concat_frames; cbn [bind].
  unfold list_wire; rewrite (Forall2_len _ _ _ Hitems); reflexivity.
Qed.

(** X7.  A non-empty array of at most 65535 items, under a list or set hint,
    each item encoding under the subtype to a non-empty buffer of at most
    65535 octets, encodes to the item count on two big-endian octets
    followed, for each item in order, by its length on two big-endian octets
    and its octets. *)
Theorem encodeList_wire :
  forall (fuel : nat) (items : list value) (h : hint) (code : Z)
         (subs : option (list hint)) (bs : list buffer),
    resolve rt (VArray items) h = Ok (code, subs) ->
    is_list_code code = true ->
    0 < len items <= 65535 ->
    Forall2 (fun v b => encode rt fuel v (subtype_at 0 subs) = Ok (Some b)
                        /\ framable b) items bs ->
    encode rt (S fuel) (VArray items) h = Ok (Some (list_wire bs)).
Proof. intros; eapply encodeList_frames_lemma; eassumption. Qed.

(** X8.  An array of more than 65535 items is rejected under a list or set
    hint ("value is out of bounds") before any item is encoded: the count is
    never written truncated. *)
Theorem encodeList_too_many_items :
  forall (fuel : nat) (items : list value) (h : hint) (code : Z)
         (subs : option (list hint)),
    resolve rt (VArray items) h = Ok (code, subs) ->
    is_list_code code = true ->
    65535 < len items ->
    encode rt fuel (VArray items) h = Throw out_of_bounds.
Proof.
  intros fuel items h code subs Hres Hcode Hn.
  rewrite encode_unfold, Hres; cbn [bind fst snd].
  unfold is_list_code in Hcode.
  destruct (classify code) as [[] |]; try discriminate;
    unfold encodeList;
    (destruct (Z.eqb_spec (len items) 0); [lia |]);
    cbn [getLengthBuffer];
    (destruct (Z.eqb_spec (len items) 0); [lia |]);
    rewrite writeUInt16BE_over by exact Hn; reflexivity.
Qed.

(** ** Reading lists back *)

Lemma skipn_length_app {A : Type} (a b : list A) :
  skipn (List.length a) (a ++ b) = b.
Proof. induction a; simpl; auto. Qed.

Lemma firstn_length_app {A : Type} (a b : list A) :
  firstn (List.length a) (a ++ b) = a.
Proof. induction a; simpl; congruence. Qed.

Lemma len_app {A : Type} (a b : list A) : len (a ++ b) = len a + len b.
Proof. unfold len; rewrite length_app; lia. Qed.

Lemma slice_middle (a b c : buffer) :
  slice (a ++ b ++ c) (len a) (len a + len b) = b.
Proof.
  unfold slice, len.
  replace (Z.of_nat (List.length a) + Z.of_nat (List.length b)
           - Z.of_nat (List.length a)) with (Z.of_nat (List.length b)) by lia.
  rewrite !Nat2Z.id, skipn_length_app; apply firstn_length_app.
Qed.

Lemma readUInt16BE_at (pre rest : buffer) (n : Z) :
  0 <= n <= 65535 ->
  readUInt16BE (pre ++ be_split 2 n ++ rest) (len pre) = Ok n.
Proof.
  intros Hn; unfold readUInt16BE.
  rewrite !len_app, len_be_split; pose proof (len_nonneg rest).
  destruct (Z.gtb_spec (len pre + 2) (len pre + (Z.of_nat 2 + len rest)));
    [lia |].
  replace (len pre + 2) with (len pre + len (be_split 2 n))
    by (rewrite len_be_split; lia).
  rewrite slice_middle, be_combine_split_small; [reflexivity |].
  change (256 ^ Z.of_nat 2) with 65536; lia.
Qed.

Section ReadItems.
Variable dec : buffer -> Z -> result value.
Variable type : Z.

Lemma decodeItems_frames (bs : list buffer) (items : list value) :
  Forall2 (fun b v => len b <= 65535 /\ dec b type = Ok v) bs items ->
  forall pre post : buffer,
    decodeItems dec type (pre ++ flat_map item_frame bs ++ post) (len pre)
      (List.length bs)
    = Ok items.
Proof.
  induction 1 as [| b v bs items [Hb Hv] _ IH]; intros pre post; [reflexivity |].
  set (tail := flat_map item_frame bs ++ post).
  assert (E1 : pre ++ flat_map item_frame (b :: bs) ++ post
               = pre ++ be_split 2 (len b) ++ (b ++ tail)).
  { cbn [flat_map]; unfold item_frame at 1, tail.
    rewrite <- !app_assoc; reflexivity. }
  assert (E2 : pre ++ be_split 2 (len b) ++ (b ++ tail)
               = (pre ++ be_split 2 (len b)) ++ b ++ tail)
    by (rewrite <- app_assoc; reflexivity).
  assert (E3 : (pre ++ be_split 2 (len b)) ++ b ++ tail
               = ((pre ++ be_split 2 (len b)) ++ b) ++ flat_map item_frame bs ++ post)
    by (unfold tail; rewrite <- !app_assoc; reflexivity).
  assert (L2 : len pre + 2 = len (pre ++ be_split 2 (len b)))
    by (rewrite len_app, len_be_split; lia).
  rewrite E1; cbn [List.length decodeItems].
  rewrite readUInt16BE_at by (pose proof (len_nonneg b); lia); cbn [bind].
  rewrite E2, L2, slice_middle, Hv; cbn [bind].
  rewrite E3, <- len_app, IH; reflexivity.
Qed.

Lemma decodeList_wire (bs : list buffer) (items : list value) :
  len bs <= 65535 ->
  Forall2 (fun b v => len b <= 65535 /\ dec b type = Ok v) bs items ->
  decodeList dec (list_wire bs) type = Ok (VArray items).
Proof.
  intros Hn Hitems; unfold decodeList, list_wire.
  assert (Hcount : 0 <= len bs <= 65535) by (pose proof (len_nonneg bs); lia).
  pose proof (readUInt16BE_at [] (flat_map item_frame bs) (len bs) Hcount) as Hr.
  cbn [app] in Hr; change (len (@nil Z)) with 0 in Hr.
  rewrite Hr; cbn [bind]; unfold len at 2; rewrite Nat2Z.id.
  pose proof (decodeItems_frames bs items Hitems (be_split 2 (len bs)) []) as Hd.
  rewrite app_nil_r, len_be_split in Hd.
  change (Z.of_nat 2) with 2 in Hd; rewrite Hd; reflexivity.
Qed.
End ReadItems.

Lemma decodeElement_decode (bytes : buffer) (code : Z) :
  decodeElement rt bytes code = decode rt (Some bytes) (Desc code NoSub).
Proof.
  unfold decodeElement, decode, decode_with; cbn [desc_code].
  destruct (classify code) as [[] |]; reflexivity.
Qed.

Lemma decode_as_list (bytes : buffer) (code : Z) (elem : typeDesc) :
  is_list_code code = true ->
  decode rt (Some bytes) (Desc code (ElemSub elem))
  = decodeList (decodeElement rt) bytes (desc_code elem).
Proof.
  unfold is_list_code, decode, decode_with; cbn [desc_code]; intros Hcode.
  destruct (classify code) as [[] |]; try discriminate; reflexivity.
Qed.

(** X9.  Lists and sets of scalars round-trip: when every item of a
    non-empty array encodes, under the subtype of the hint, to a non-empty
    buffer of at most 65535 octets that decodes back to the item under the
    element type, the encoding of the array decodes back to the array, item
    for item and in order. *)
Theorem decode_encode_list :
  forall (fuel : nat) (items : list value) (h : hint) (code : Z)
         (subs : option (list hint)) (elem : Z) (bs : list buffer),
    resolve rt (VArray items) h = Ok (code, subs) ->
    is_list_code code = true ->
    0 < len items <= 65535 ->
    Forall2 (fun v b => encode rt fuel v (subtype_at 0 subs) = Ok (Some b)
                        /\ framable b
                        /\ decode rt (Some b) (Desc elem NoSub) = Ok v) items bs ->
    exists bytes,
      encode rt (S fuel) (VArray items) h = Ok (Some bytes)
      /\ decode rt (Some bytes) (Desc code (ElemSub (Desc elem NoSub)))
         = Ok (VArray items).
Proof.
  intros fuel items h code subs elem bs Hres Hcode Hn Hitems.
  exists (list_wire bs); split.
  - apply (encodeList_frames_lemma fuel items h code subs bs Hres Hcode Hn).
    revert Hitems; apply Forall2_impl; tauto.
  - rewrite decode_as_list by exact Hcode; cbn [desc_code].
    apply decodeList_wire.
    + rewrite <- (Forall2_len _ _ _ Hitems); lia.
    + apply Forall2_flip.
      revert Hitems; apply Forall2_impl; intros v b (_ & Hb & Hdec).
      rewrite decodeElement_decode; unfold framable in Hb; split; [lia | exact Hdec].
Qed.

(** X10.  Collections do not nest on the way back: decoding a list or set
    whose element type is itself a list, a set or a map throws as soon as
    there is a first item to decode, because the item is decoded against its
    bare code, without subtypes. *)
Theorem decode_nested_collection_throws :
  forall (bytes : buffer) (code : Z) (elem : typeDesc) (n l : Z),
    is_list_code code = true ->
    is_collection_code (desc_code elem) = true ->
    readUInt16BE bytes 0 = Ok n ->
    0 < n ->
    readUInt16BE bytes 2 = Ok l ->
    decode rt (Some bytes) (Desc code (ElemSub elem)) = Throw undefined_index.
Proof.
  intros bytes code elem n l Hcode Helem Hn Hpos Hl.
  rewrite decode_as_list by exact Hcode; unfold decodeList.
  rewrite Hn; cbn [bind].
  destruct (Z.to_nat n) as [| k] eqn:Hk; [lia |].
  cbn [decodeItems]; rewrite Hl; cbn [bind].
  unfold decodeElement at 1, decode_with; cbn [desc_code].
  unfold is_collection_code in Helem.
  destruct (classify (desc_code elem)) as [[] |]; try discriminate; reflexivity.
Qed.

(** X11.  The empty array does not round-trip: under a list or set hint it
    encodes to [null], which decodes to [null]; the two octets [00 00] that
    would stand for it do decode to the empty array. *)
Theorem empty_list_comes_back_null :
  forall (fuel : nat) (h : hint) (code : Z) (subs : option (list hint))
         (elem : typeDesc),
    resolve rt (VArray []) h = Ok (code, subs) ->
    is_list_code code = true ->
    exists r,
      encode rt fuel (VArray []) h = Ok r
      /\ decode rt r (Desc code (ElemSub elem)) = Ok VNull
      /\ decode rt (Some [0; 0]) (Desc code (ElemSub elem)) = Ok (VArray []).
Proof.
  intros fuel h code subs elem Hres Hcode; exists None; repeat split.
  - rewrite encode_unfold, Hres; cbn [bind fst snd].
    unfold is_list_code in Hcode.
    destruct (classify code) as [[] |]; try discriminate; reflexivity.
  - rewrite decode_as_list by exact Hcode; reflexivity.
Qed.

(** ** Maps on the wire *)











(** ** Reading maps back *)










(** ** Further properties of the routing key *)

Lemma composeRoutingKey_fields (o : QueryOptions) (items : list (option buffer)) :
  hints (fst (composeRoutingKey o items)) = hints o
  /\ routingIndexes (fst (composeRoutingKey o items)) = routingIndexes o.
Proof.
  unfold composeRoutingKey.
  destruct items as [| item [| item' rest]]; try (split; reflexivity);
    destruct (do _ <- totalLength _; writeFragments _); split; reflexivity.
Qed.

(** X14.  Whatever it does to [options.routingKey], and whether it returns
    or throws, [setRoutingKey] leaves [options.hints] and
    [options.routingIndexes] as they were. *)
Theorem setRoutingKey_keeps_other_fields :
  forall (fuel : nat) (params : option (list value)) (o : QueryOptions),
    hints (fst (setRoutingKey rt fuel params o)) = hints o
    /\ routingIndexes (fst (setRoutingKey rt fuel params o)) = routingIndexes o.
Proof.
  intros fuel params o; unfold setRoutingKey.
  destruct (routingKey o) as [| b | items].
  - destruct (routingIndexes o) as [indexes |] eqn:Hi;
      destruct params as [[| p ps] |];
      try (split; cbn [fst]; congruence).
    destruct (mapM (candidate rt fuel (p :: ps) (hints_or_empty o)) indexes)
      as [[| k [| k' ks]] | |]; try (split; cbn [fst]; congruence).
    + split; cbn [fst set_routingKey hints routingIndexes]; congruence.
    + destruct (composeRoutingKey_fields
                  (set_routingKey o (RKArray (k :: k' :: ks))) (k :: k' :: ks))
        as [Hh Hr].
      rewrite Hh, Hr; split; cbn [set_routingKey hints routingIndexes]; congruence.
  - split; reflexivity.
  - apply composeRoutingKey_fields.
Qed.

Lemma composeRoutingKey_settles (o o' : QueryOptions) (items : list (option buffer)) :
  composeRoutingKey o items = (o', Ok tt) ->
  is_fragment_array (routingKey o') = false.
Proof.
  unfold composeRoutingKey.
  destruct items as [| item [| item' rest]].
  - destruct (do _ <- totalLength _; writeFragments _); intros [= <-]; reflexivity.
  - intros [= <-]; destruct item; reflexivity.
  - destruct (do _ <- totalLength _; writeFragments _); intros [= <-]; reflexivity.
Qed.

(** X15.  A call that returns never leaves an array in
    [options.routingKey]: the key is then a single buffer or absent.  Once
    it is a single buffer, every further call, with whatever parameters,
    returns and changes nothing. *)
Theorem setRoutingKey_settles :
  forall (fuel : nat) (params : option (list value)) (o o' : QueryOptions),
    setRoutingKey rt fuel params o = (o', Ok tt) ->
    (is_single_buffer (routingKey o') = true \/ routingKey o' = RKAbsent)
    /\ (is_single_buffer (routingKey o') = true ->
        forall fuel' params', setRoutingKey rt fuel' params' o' = (o', Ok tt)).
Proof.
  intros fuel params o o' Hcall.
  assert (Hnot : is_fragment_array (routingKey o') = false).
  { revert Hcall; unfold setRoutingKey.
    destruct (routingKey o) as [| b | items] eqn:Hk.
    - destruct (routingIndexes o) as [indexes |];
        destruct params as [[| p ps] |];
        try (intros [= <-]; rewrite Hk; reflexivity).
      destruct (mapM (candidate rt fuel (p :: ps) (hints_or_empty o)) indexes)
        as [[| k [| k' ks]] | |]; try discriminate.
      + intros [= <-]; rewrite Hk; reflexivity.
      + intros [= <-]; destruct k; reflexivity.
      + apply composeRoutingKey_settles.
    - intros [= <-]; rewrite Hk; reflexivity.
    - apply composeRoutingKey_settles. }
  split.
  - destruct (routingKey o'); [right | left | discriminate]; reflexivity.
  - intros Hb fuel' params'; unfold setRoutingKey.
    destruct (routingKey o'); try discriminate; reflexivity.
Qed.

Lemma Ok_inj {A : Type} (a b : A) : Ok a = Ok b -> a = b.
Proof. congruence. Qed.

Lemma writeInt16BE_length (n : Z) (lb : buffer) :
  writeInt16BE n = Ok lb -> len lb = 2.
Proof.
  unfold writeInt16BE; destruct ((n >? 32767) || (n <? -32768)); [discriminate |].
  intros [= <-]; reflexivity.
Qed.

(** X16.  The buffer allocated for a composite key is exactly filled: the
    length computed in the first pass over the fragments is the number of
    octets that the second pass writes, so that no octet of the fresh buffer
    is left as allocated. *)
Theorem composite_key_is_filled :
  forall (items : list (option buffer)) (n : Z) (key : buffer),
    totalLength items = Ok n ->
    writeFragments items = Ok key ->
    len key = n.
Proof.
  induction items as [| item rest IH]; intros n key; cbn [totalLength writeFragments].
  - intros [= <-] [= <-]; reflexivity.
  - destruct item as [b |]; cbn [item_length bind]; [| discriminate].
    destruct (totalLength rest) as [r | |]; cbn [bind]; try discriminate.
    intros Hn; apply Ok_inj in Hn; subst n.
    destruct (writeInt16BE (len b)) as [lb | |] eqn:Hlb; cbn [bind]; try discriminate.
    destruct (writeFragments rest) as [k | |]; cbn [bind]; try discriminate.
    intros Hkey; apply Ok_inj in Hkey; subst key.
    pose proof (writeInt16BE_length _ _ Hlb) as H2.
    pose proof (IH r k eq_refl eq_refl) as Hk.
    rewrite !len_app, H2, Hk; change (len [0]) with 1; lia.
Qed.

Lemma app_same_length {A : Type} (a b r s : list A) :
  List.length a = List.length b -> a ++ r = b ++ s -> a = b /\ r = s.
Proof.
  revert b; induction a as [| x a IH]; intros [| y b] Hlen Heq;
    try discriminate; [split; [reflexivity | exact Heq] |].
  cbn [app] in Heq; injection Heq as -> Heq; injection Hlen as Hlen.
  destruct (IH b Hlen Heq) as [-> ->]; split; reflexivity.
Qed.

Lemma frame_injective (a b r s : buffer) :
  short_fragment a -> short_fragment b ->
  frame a ++ r = frame b ++ s -> a = b /\ r = s.
Proof.
  unfold short_fragment, frame; intros Ha Hb Heq; rewrite <- !app_assoc in Heq.
  pose proof (len_nonneg a); pose proof (len_nonneg b).
  destruct (app_same_length (be_split 2 (len a)) (be_split 2 (len b)) _ _
              ltac:(rewrite !be_split_length; reflexivity) Heq) as [Hl Hrest].
  apply (f_equal be_combine) in Hl.
  rewrite !be_combine_split_small in Hl
    by (change (256 ^ Z.of_nat 2) with 65536; lia).
  destruct (app_same_length a b _ _ ltac:(unfold len in Hl; lia) Hrest) as [-> Hr].
  injection Hr as ->; split; reflexivity.
Qed.

Lemma composite_injective :
  forall (a b : list buffer),
    Forall short_fragment a -> Forall short_fragment b ->
    composite a = composite b -> a = b.
Proof.
  unfold composite; induction a as [| x a IH]; intros [| y b] Ha Hb Heq.
  - reflexivity.
  - cbn [flat_map] in Heq; unfold frame in Heq; discriminate.
  - cbn [flat_map] in Heq; unfold frame in Heq; discriminate.
  - cbn [flat_map] in Heq.
    inversion Ha as [| ? ? Hx Ha']; inversion Hb as [| ? ? Hy Hb']; subst.
    destruct (frame_injective x y _ _ Hx Hy Heq) as [-> Hrest].
    rewrite (IH b Ha' Hb' Hrest); reflexivity.
Qed.

(** X17.  The composite key is unambiguous: when [setRoutingKey] is called on
    two option records whose [routingKey] is an array of two or more
    fragments, each fragment shorter than 32768 octets, and leaves the same
    key in both, the two arrays hold the same fragments in the same order. *)
Theorem setRoutingKey_composite_unambiguous :
  forall (fuel fuel' : nat) (params params' : option (list value))
         (o o' : QueryOptions) (a b : list buffer),
    routingKey o = RKArray (map Some a) ->
    routingKey o' = RKArray (map Some b) ->
    (2 <= List.length a)%nat ->
    (2 <= List.length b)%nat ->
    Forall short_fragment a ->
    Forall short_fragment b ->
    routingKey (fst (setRoutingKey rt fuel params o))
    = routingKey (fst (setRoutingKey rt fuel' params' o')) ->
    a = b.
Proof.
  intros fuel fuel' params params' o o' a b Ho Ho' Ha2 Hb2 Ha Hb.
  unfold setRoutingKey; rewrite Ho, Ho'.
  rewrite (composeRoutingKey_composite o a Ha2 Ha).
  rewrite (composeRoutingKey_composite o' b Hb2 Hb).
  cbn [fst set_routingKey routingKey]; intros Hkey.
  injection Hkey as Hkey; exact (composite_injective a b Ha Hb Hkey).
Qed.

(** ** Scalars: coercions, forms that agree, round trip without a hint *)

Lemma scalar_roundtrip :
  forall (fuel : nat) (t : dataType) (v : value) (h : hint),
    is_scalar t = true ->
    canonical t v ->
    names rt t h ->
    exists bytes,
      encode rt fuel v h = Ok (Some bytes)
      /\ decode rt (Some bytes) (descriptor t) = Ok v.
Proof.
  intros fuel t v h Hscalar Hcan Hnames.
  destruct (resolve_names t v h Hnames Hcan) as (code & subs & Hres & Hcode).
  rewrite encode_unfold, Hres; cbn [bind fst snd].
  unfold decode, descriptor, decode_with; cbn [desc_code].
  rewrite classify_code_of.
  destruct Hcode as [Hc | [-> Hc]]; rewrite Hc; [| destruct Hcan as [b ->]].
  2: { eexists; split; reflexivity. }
  clear Hc; destruct t; try discriminate; cbn [canonical] in Hcan;
    repeat match goal with
           | H : exists _, _ |- _ => destruct H
           | H : _ /\ _ |- _ => destruct H
           end; subst v; cbv iota.
  all: try (eexists; split; reflexivity).
  - (* ascii *)
    eexists; split; [reflexivity |].
    rewrite ascii_roundtrip by assumption; reflexivity.
  - (* bigint *)
    eexists; split; [reflexivity |].
    rewrite Long_fromBuffer_toBuffer by assumption; reflexivity.
  - (* boolean *)
    eexists; split; [reflexivity |].
    destruct x; reflexivity.
  - (* counter *)
    eexists; split; [reflexivity |].
    rewrite Long_fromBuffer_toBuffer by assumption; reflexivity.
  - (* double *)
    eexists; split; [reflexivity |].
    rewrite readDoubleBE_write by assumption; reflexivity.
  - (* float *)
    eexists; split; [reflexivity |].
    rewrite readFloatBE_write by assumption; reflexivity.
  - (* int *)
    unfold encodeInt, isNaN, ToNumber.
    rewrite number_isNaN_of_Z by (apply int32_safe; assumption).
    rewrite writeInt32BE_of_Z by assumption; cbn [bind].
    eexists; split; [reflexivity |].
    rewrite readInt32BE_split by assumption; reflexivity.
  - (* text *)
    eexists; split; [reflexivity |].
    rewrite utf8_roundtrip by assumption; reflexivity.
  - (* timestamp *)
    unfold encodeTimestamp.
    rewrite number_isNaN_of_Z by (apply time_value_safe; assumption).
    cbn [bind]; unfold encodeBigNumber; cbn [bind].
    rewrite Long_fromNumber_of_Z by (apply time_value_safe; assumption).
    eexists; split; [reflexivity |].
    rewrite Long_fromBuffer_toBuffer; cbn [bind].
    + unfold Long_toNumber; rewrite TimeClip_of_Z by assumption; reflexivity.
    + match goal with H : time_value _ |- _ => unfold time_value in H end.
      unfold int64, Long_min, Long_max; lia.
  - (* uuid *)
    eexists; split; [reflexivity |].
    cbn [encodeUuid]; rewrite uuid_parse_unparse by assumption; reflexivity.
  - (* varchar *)
    eexists; split; [reflexivity |].
    rewrite utf8_roundtrip by assumption; reflexivity.
  - (* varint *)
    eexists; split; [reflexivity |].
    rewrite Integer_fromBuffer_toBuffer; reflexivity.
  - (* timeuuid *)
    eexists; split; [reflexivity |].
    cbn [encodeUuid]; rewrite uuid_parse_unparse by assumption; reflexivity.
Qed.

Lemma resolve_guessed (v : value) (h : hint) (code : Z) :
  hint_truthy h = false ->
  guessDataType v = guessed code ->
  resolve rt v h = Ok (code, None).
Proof.
  intros Hh Hguess; unfold resolve; rewrite Hh, Hguess; reflexivity.
Qed.

Lemma encode_guessed (fuel : nat) (v : value) (h : hint) (code : Z) :
  hint_truthy h = false ->
  guessDataType v = guessed code ->
  encode rt fuel v h = encode rt fuel v (HInfo (Some code) None).
Proof.
  intros Hh Hguess; rewrite !encode_unfold.
  rewrite (resolve_guessed v h code Hh Hguess); reflexivity.
Qed.

(** X18.  A value encoded without a hint decodes back under the type that
    was guessed for it, provided it has the form in which [decode] yields
    the values of that type. *)
Theorem decode_encode_guessed :
  forall (fuel : nat) (t : dataType) (v : value) (h : hint),
    hint_truthy h = false ->
    is_scalar t = true ->
    guessDataType v = guessed (code_of t) ->
    canonical t v ->
    exists bytes,
      encode rt fuel v h = Ok (Some bytes)
      /\ decode rt (Some bytes) (descriptor t) = Ok v.
Proof.
  intros fuel t v h Hh Hscalar Hguess Hcan.
  rewrite (encode_guessed fuel v h (code_of t) Hh Hguess).
  apply scalar_roundtrip; try assumption.
  right; left; exists None; reflexivity.
Qed.

Lemma resolve_truthy (v v' : value) (h : hint) :
  hint_truthy h = true -> resolve rt v h = resolve rt v' h.
Proof. intros Hh; unfold resolve; rewrite Hh; reflexivity. Qed.

(** X19.  Under a timestamp hint a [Date], the number of its milliseconds
    and the 64-bit integer of its milliseconds encode to the same eight
    octets, the big-endian two's complement of the milliseconds. *)
Theorem encode_timestamp_forms_agree :
  forall (fuel : nat) (h : hint) (code : Z) (subs : option (list hint)) (ms : Z),
    hint_truthy h = true ->
    resolve rt (VLong ms) h = Ok (code, subs) ->
    classify code = Some DTimestamp ->
    time_value ms ->
    encode rt fuel (VDate (number_of_Z ms)) h = Ok (Some (Long_toBuffer ms))
    /\ encode rt fuel (VNumber (number_of_Z ms)) h = Ok (Some (Long_toBuffer ms))
    /\ encode rt fuel (VLong ms) h = Ok (Some (Long_toBuffer ms))
    /\ List.length (Long_toBuffer ms) = 8%nat
    /\ be_signed (Long_toBuffer ms) = ms.
Proof.
  intros fuel h code subs ms Hh Hres Hc Hms.
  pose proof (time_value_safe ms Hms) as Hsafe.
  rewrite !encode_unfold.
  rewrite (resolve_truthy (VDate (number_of_Z ms)) (VLong ms) h Hh).
  rewrite (resolve_truthy (VNumber (number_of_Z ms)) (VLong ms) h Hh).
  rewrite Hres; cbn [bind fst]; rewrite Hc; cbv iota.
  unfold encodeTimestamp; rewrite number_isNaN_of_Z by exact Hsafe.
  cbn [bind]; unfold encodeBigNumber; cbn [bind].
  rewrite Long_fromNumber_of_Z by exact Hsafe.
  repeat split.
  unfold Long_toBuffer; change (2 ^ 64) with (256 ^ Z.of_nat 8).
  unfold time_value in Hms.
  apply be_signed_split; [lia |].
  change (256 ^ Z.of_nat 8) with (2 ^ 64); lia.
Qed.

(** X20.  Under a timestamp hint an invalid [Date], and a string that does
    not parse to a date, are rejected with the type error "Invalid date". *)
Theorem encode_invalid_date_throws :
  forall (fuel : nat) (v : value) (h : hint) (code : Z) (subs : option (list hint)),
    resolve rt v h = Ok (code, subs) ->
    classify code = Some DTimestamp ->
    (exists t, v = VDate t /\ number_isNaN t = true)
    \/ (exists s, v = VString s
                  /\ number_isNaN (TimeClip (Date_parse rt s)) = true) ->
    encode rt fuel v h = Throw (TypeError "Invalid date:").
Proof.
  intros fuel v h code subs Hres Hc [(t & -> & Ht) | (s & -> & Hs)];
    rewrite encode_unfold, Hres; cbn [bind fst]; rewrite Hc; cbv iota;
    unfold encodeTimestamp; [rewrite Ht | rewrite Hs]; reflexivity.
Qed.

(** X21.  Under an int hint every value whose numeric coercion is a 32-bit
    integer -- a number, a numeric string, [true] -- is encoded, and decodes
    to that integer as a number: the round trip normalises the value. *)
Theorem decode_encode_int_normalises :
  forall (fuel : nat) (v : value) (h : hint) (subs : option (list hint)) (z : Z),
    is_absent v = false ->
    resolve rt v h = Ok (dataTypes.int, subs) ->
    ToNumber rt v = number_of_Z z ->
    int32 z ->
    exists bytes,
      encode rt fuel v h = Ok (Some bytes)
      /\ decode rt (Some bytes) (descriptor DInt) = Ok (VNumber (number_of_Z z)).
Proof.
  intros fuel v h subs z Habs Hres Hnum Hz.
  rewrite (encode_int fuel v h subs Hres Habs); unfold encodeInt, isNaN.
  rewrite Hnum, number_isNaN_of_Z by (apply int32_safe; exact Hz).
  rewrite writeInt32BE_of_Z by exact Hz; cbn [bind].
  eexists; split; [reflexivity |].
  unfold decode, descriptor, decode_with; cbn [desc_code].
  rewrite classify_code_of, readInt32BE_split by exact Hz; reflexivity.
Qed.

(** ** Bounds *)

Lemma slice_prefix (b extra : buffer) (w : Z) :
  len b = w -> slice (b ++ extra) 0 w = b.
Proof.
  intros <-; unfold slice, len; simpl skipn.
  rewrite Z.sub_0_r, Nat2Z.id; apply firstn_length_app.
Qed.

(** X22.  The decoders of int, float, double and boolean read the leading
    four, four, eight and one octets: a shorter buffer -- the empty one that
    stands for a [null] map value included -- is rejected ("index out of
    range"), and octets beyond the width are ignored. *)
Theorem decode_fixed_width :
  forall (t : dataType) (w : Z) (bytes extra : buffer),
    reader_width t = Some w ->
    (len bytes < w ->
     decode rt (Some bytes) (descriptor t) = Throw index_out_of_range)
    /\ (len bytes = w ->
        decode rt (Some (bytes ++ extra)) (descriptor t)
        = decode rt (Some bytes) (descriptor t)).
Proof.
  intros t w bytes extra Hw; pose proof (len_nonneg bytes) as Hpos.
  pose proof (len_nonneg extra) as Hextra.
  unfold decode, descriptor, decode_with; cbn [desc_code].
  rewrite classify_code_of.
  destruct t; try discriminate; injection Hw as <-; split; intros Hlen.
  - destruct bytes; [reflexivity | unfold len in Hlen; simpl in Hlen; lia].
  - destruct bytes as [| x [| y rest]]; try (unfold len in Hlen; simpl in Hlen; lia).
    reflexivity.
  - unfold readDoubleBE; destruct (Z.gtb_spec 8 (len bytes)); [reflexivity | lia].
  - unfold readDoubleBE; rewrite len_app.
    destruct (Z.gtb_spec 8 (len bytes + len extra)); [lia |].
    destruct (Z.gtb_spec 8 (len bytes)); [lia |].
    rewrite slice_prefix, slice_all by exact Hlen; reflexivity.
  - unfold readFloatBE; destruct (Z.gtb_spec 4 (len bytes)); [reflexivity | lia].
  - unfold readFloatBE; rewrite len_app.
    destruct (Z.gtb_spec 4 (len bytes + len extra)); [lia |].
    destruct (Z.gtb_spec 4 (len bytes)); [lia |].
    rewrite slice_prefix, slice_all by exact Hlen; reflexivity.
  - unfold readInt32BE; destruct (Z.gtb_spec 4 (len bytes)); [reflexivity | lia].
  - unfold readInt32BE; rewrite len_app.
    destruct (Z.gtb_spec 4 (len bytes + len extra)); [lia |].
    destruct (Z.gtb_spec 4 (len bytes)); [lia |].
    rewrite slice_prefix, slice_all by exact Hlen; reflexivity.
Qed.

Lemma encodeItems_oversized (fuel : nat) (subtype : hint)
  (before after : list value) (v : value) (bs : list buffer) (b : buffer) :
  Forall2 (fun x y => encode rt fuel x subtype = Ok (Some y) /\ framable y)
          before bs ->
  encode rt fuel v subtype = Ok (Some b) ->
  65535 < len b ->
  encodeItems rt (encode rt fuel) subtype (before ++ v :: after)
  = Throw out_of_bounds.
Proof.
  intros Hbefore Hv Hb; induction Hbefore as [| x y before bs [Hx Hy] _ IH].
  - cbn [app encodeItems]; rewrite Hv; cbn [bind getLengthBuffer].
    destruct (Z.eqb_spec (len b) 0); [lia |].
    rewrite writeUInt16BE_over by exact Hb; reflexivity.
  - cbn [app encodeItems]; rewrite Hx; cbn [bind].
    rewrite getLengthBuffer_bytes by exact Hy; cbn [bind].
    rewrite IH; reflexivity.
Qed.

(** X23.  An item whose encoding is longer than 65535 octets makes the whole
    list fail ("value is out of bounds"): its length is never written
    truncated. *)
Theorem encodeList_oversized_item :
  forall (fuel : nat) (before after : list value) (v : value) (h : hint) (code : Z)
         (subs : option (list hint)) (bs : list buffer) (b : buffer),
    resolve rt (VArray (before ++ v :: after)) h = Ok (code, subs) ->
    is_list_code code = true ->
    len (before ++ v :: after) <= 65535 ->
    Forall2 (fun x y => encode rt fuel x (subtype_at 0 subs) = Ok (Some y)
                        /\ framable y) before bs ->
    encode rt fuel v (subtype_at 0 subs) = Ok (Some b) ->
    65535 < len b ->
    encode rt (S fuel) (VArray (before ++ v :: after)) h = Throw out_of_bounds.
Proof.
  intros fuel before after v h code subs bs b Hres Hcode Hn Hbefore Hv Hb.
  rewrite (encode_as_list fuel _ h code subs Hres Hcode); unfold encodeList.
  assert (Hpos : 0 < len (before ++ v :: after)).
  { rewrite len_app; pose proof (len_nonneg before).
    unfold len at 2; cbn [List.length]; lia. }
  destruct (Z.eqb_spec (len (before ++ v :: after)) 0); [lia |].
  rewrite getLengthBuffer_array by lia; cbn [bind].
  rewrite (encodeItems_oversized fuel _ before after v bs b Hbefore Hv Hb).
  reflexivity.
Qed.

(** ** Routing indexes *)

Lemma element_at_beyond (ps : list value) (i : Z) :
  beyond ps i -> element_at VUndefined ps i = VUndefined.
Proof.
  unfold beyond, element_at, len; intros [Hneg | Hover].
  - destruct (Z.ltb_spec i 0); [reflexivity | lia].
  - destruct (Z.ltb_spec i 0); [reflexivity |].
    apply nth_overflow; lia.
Qed.

Lemma set_routingKey_same (o : QueryOptions) :
  set_routingKey o (routingKey o) = o.
Proof. destruct o; reflexivity. Qed.

(** X24.  A routing index that points outside the parameters is not an
    error: the parameter reads as [undefined], its candidate is [null], and
    with that single index the call returns without installing a key. *)
Theorem setRoutingKey_index_beyond_params :
  forall (fuel : nat) (ps : list value) (o : QueryOptions) (i : Z),
    routingKey o = RKAbsent ->
    routingIndexes o = Some [i] ->
    ps <> [] ->
    beyond ps i ->
    setRoutingKey rt fuel (Some ps) o = (o, Ok tt).
Proof.
  intros fuel ps o i Hk Hi Hps Hbeyond; unfold setRoutingKey; rewrite Hk, Hi.
  destruct ps as [| p ps']; [contradiction Hps; reflexivity |].
  cbn [mapM]; unfold candidate at 1.
  rewrite (element_at_beyond _ i Hbeyond), encode_unfold; cbn [bind of_item].
  rewrite <- Hk, set_routingKey_same; reflexivity.
Qed.

Lemma mapM_ext {A B : Type} (f g : A -> result B) (l : list A) :
  (forall a, In a l -> f a = g a) -> mapM f l = mapM g l.
Proof.
  induction l as [| a l IH]; intros Heq; [reflexivity |].
  cbn [mapM]; rewrite (Heq a (or_introl eq_refl)), IH; [reflexivity |].
  intros x Hx; apply Heq; right; exact Hx.
Qed.

(** X25.  Only the parameters at the routing indexes matter: two non-empty
    parameter arrays that agree at every listed index give the same outcome
    and the same options, whatever they hold elsewhere. *)
Theorem setRoutingKey_selected_params_only :
  forall (fuel : nat) (ps ps' : list value) (o : QueryOptions),
    ps <> [] -> ps' <> [] ->
    (forall indexes i,
        routingIndexes o = Some indexes -> In i indexes ->
        element_at VUndefined ps i = element_at VUndefined ps' i) ->
    setRoutingKey rt fuel (Some ps) o = setRoutingKey rt fuel (Some ps') o.
Proof.
  intros fuel ps ps' o Hps Hps' Hsame; unfold setRoutingKey.
  destruct (routingKey o); try reflexivity.
  destruct (routingIndexes o) as [indexes |]; [| reflexivity].
  destruct ps as [| p ps0]; [contradiction Hps; reflexivity |].
  destruct ps' as [| p' ps0']; [contradiction Hps'; reflexivity |].
  rewrite (mapM_ext (candidate rt fuel (p :: ps0) (hints_or_empty o))
             (candidate rt fuel (p' :: ps0') (hints_or_empty o))); [reflexivity |].
  intros i Hin; unfold candidate; rewrite (Hsame indexes i eq_refl Hin); reflexivity.
Qed.

End Facts.

(** * Worked examples *)

Lemma encode_empty_map_witness :
  resolve sample_runtime (VObject []) (HName (str "map")) = Ok (dataTypes.map, None)
  /\ encode sample_runtime 0 (VObject []) (HName (str "map")) = Ok (Some [0; 0]).
Proof.
  split; [reflexivity |].
  apply (encode_empty_map_is_zero_count sample_runtime 0 (VObject [])
           (HName (str "map")) None); reflexivity.
Defined.

Lemma setRoutingKey_noop_witness :
  setRoutingKey sample_runtime 0 (Some [one; VString (str "text")]) buffer_options
  = (buffer_options, Ok tt).
Proof.
  apply (setRoutingKey_noop sample_runtime 0 _ buffer_options);
    [reflexivity | left; reflexivity].
Defined.

Lemma setRoutingKey_encode_failure_witness :
  setRoutingKey sample_runtime 0 (Some [unguessable])
    (mkOptions None RKAbsent (Some [0]))
  = (mkOptions None RKAbsent (Some [0]),
     Throw (TypeError "Target data type could not be guessed, you must specify a hint for value:")).
Proof.
  apply (setRoutingKey_encode_failure sample_runtime 0 [unguessable]
           (mkOptions None RKAbsent (Some [0])) [] [] 0).
  - reflexivity.
  - reflexivity.
  - discriminate.
  - intros j [].
  - reflexivity.
Defined.

Lemma setRoutingKey_long_fragment_witness :
  setRoutingKey sample_runtime 0 None long_fragment_options
  = (long_fragment_options, Throw out_of_bounds).
Proof.
  apply (setRoutingKey_long_fragment_throws sample_runtime 0 None
           long_fragment_options [long_fragment; [1]]).
  - reflexivity.
  - simpl; lia.
  - apply Exists_cons_hd; vm_compute; reflexivity.
Defined.

(** The composite key of the specification's example. *)
Example setRoutingKey_three_fragments :
  setRoutingKey sample_runtime 0 (Some [one; VString (str "text")])
    (mkOptions None (RKArray [Some [1]; Some [2]; Some [3; 3]]) None)
  = (mkOptions None (RKBuffer [0; 1; 1; 0; 0; 1; 2; 0; 0; 2; 3; 3; 0]) None, Ok tt)
  /\ hex_of [0; 1; 1; 0; 0; 1; 2; 0; 0; 2; 3; 3; 0] = "00010100000102000002030300"%string.
Proof. split; reflexivity. Qed.

Lemma encodeList_null_item_witness :
  (forall r, encode sample_runtime 1 (VArray [one; VNull]) list_of_int <> Ok r)
  /\ encode sample_runtime 1 (VArray [one; VNull]) list_of_int = Throw null_length.
Proof.
  destruct (encodeList_null_item_throws sample_runtime 1 [one; VNull] list_of_int
              dataTypes.list (Some [HCode dataTypes.int]) eq_refl eq_refl)
    as [_ H].
  destruct (H eq_refl) as [Hnever _]; split; [exact Hnever |].
  destruct (encodeList_null_item_throws sample_runtime 0 [one; VNull] list_of_int
              dataTypes.list (Some [HCode dataTypes.int]) eq_refl eq_refl)
    as [_ H0].
  destruct (H0 eq_refl) as [_ Hthrow].
  apply (Hthrow [0; 2] [Some [0; 4]; Some [0; 0; 0; 1]; Some [0; 0]; None]);
    reflexivity.
Defined.

Lemma setRoutingKey_from_indexes_witness :
  setRoutingKey sample_runtime 0 (Some indexed_params) indexed_options
  = (set_routingKey indexed_options
       (RKBuffer [0; 4; 0; 0; 0; 1; 0; 0; 4; 0; 0; 0; 2; 0]), Ok tt)
  /\ (exists e, candidate sample_runtime 0 indexed_params
                  (hints_or_empty indexed_options) 1 = Throw e).
Proof.
  split.
  - apply (setRoutingKey_from_indexes sample_runtime 0 indexed_params indexed_options
             [0; 2] [[0; 0; 0; 1]; [0; 0; 0; 2]]).
    + reflexivity.
    + reflexivity.
    + discriminate.
    + repeat constructor.
    + simpl; lia.
    + repeat constructor; unfold short_fragment; vm_compute; discriminate.
  - eexists; reflexivity.
Defined.

(** C4 as stated fails: a selected parameter that is [null] yields a [null]
    candidate, and two or more candidates one of which is [null] are not
    assembled. *)
Lemma setRoutingKey_from_indexes_counterexample :
  ~ (forall (rt : runtime) (fuel : nat) (ps : list value) (o : QueryOptions)
            (indexes : list Z) (candidates : list (option buffer)),
        routingKey o = RKAbsent ->
        routingIndexes o = Some indexes ->
        indexes <> [] ->
        ps <> [] ->
        mapM (candidate rt fuel ps (hints_or_empty o)) indexes = Ok candidates ->
        (2 <= List.length candidates)%nat ->
        exists key,
          setRoutingKey rt fuel (Some ps) o = (set_routingKey o (RKBuffer key), Ok tt)).
Proof.
  intros H.
  destruct (H sample_runtime 0%nat [VNull; one]
              (mkOptions (Some [HName (str "int"); HName (str "int")]) RKAbsent
                         (Some [0; 1]))
              [0; 1] [None; Some [0; 0; 0; 1]]) as [key Hkey];
    try reflexivity; try discriminate.
Qed.

Lemma encode_int_coerced_witness :
  (exists msg,
      encode sample_runtime 0 (VString (str "hello")) int_hint = Throw (TypeError msg))
  /\ (exists b,
        encode sample_runtime 0 (VString (str "0x071272ab")) int_hint = Ok (Some b)
        /\ List.length b = 4%nat /\ Forall octet b /\ be_signed b = 118649515)
  /\ (exists b,
        encode sample_runtime 0 (VNumber (number_of_Z (-1))) int_hint = Ok (Some b)
        /\ List.length b = 4%nat /\ Forall octet b /\ be_signed b = -1).
Proof.
  split; [| split].
  - apply (encode_int_coerced sample_runtime 0 (VString (str "hello")) int_hint None);
      reflexivity.
  - apply (proj2 (encode_int_coerced sample_runtime 0 (VString (str "0x071272ab"))
                    int_hint None eq_refl eq_refl) 118649515);
      [vm_compute; reflexivity | unfold int32; lia].
  - apply (proj2 (encode_int_coerced sample_runtime 0 (VNumber (number_of_Z (-1)))
                    int_hint None eq_refl eq_refl) (-1));
      [reflexivity | unfold int32; lia].
Defined.

(** The two encodings that the specification singles out. *)
Example encode_int_examples :
  encode sample_runtime 0 (VNumber (number_of_Z (-1))) int_hint
  = Ok (Some [255; 255; 255; 255])
  /\ hex_of [255; 255; 255; 255] = "ffffffff"%string
  /\ encode sample_runtime 0 (VNumber (number_of_Z 0)) int_hint
     = Ok (Some [0; 0; 0; 0])
  /\ hex_of [0; 0; 0; 0] = "00000000"%string.
Proof. repeat split; vm_compute; reflexivity. Qed.

(** C7 as stated fails on both counts: a number beyond the 32-bit range is
    rejected, and a value that is neither a number nor a string, such as
    [true], is coerced and encoded. *)
Lemma encode_int_counterexample :
  ~ (forall (rt : runtime) (fuel : nat) (n : number),
        number_isNaN n = false ->
        exists b, encode rt fuel (VNumber n) (HCode dataTypes.int) = Ok (Some b))
  /\ ~ (forall (rt : runtime) (fuel : nat) (v : value),
          is_absent v = false ->
          (forall n, v <> VNumber n) -> (forall s, v <> VString s) ->
          exists e, encode rt fuel v (HCode dataTypes.int) = Throw e).
Proof.
  split; intros H.
  - destruct (H sample_runtime 0%nat (number_of_Z 2147483648) eq_refl) as [b Hb].
    vm_compute in Hb; discriminate Hb.
  - destruct (H sample_runtime 0%nat (VBool true) eq_refl) as [e He];
      try discriminate.
Qed.

Lemma decode_encode_canonical_witness :
  exists bytes,
    encode sample_runtime 0 (VNumber (number_of_Z (-1))) int_hint = Ok (Some bytes)
    /\ decode sample_runtime (Some bytes) (descriptor DInt)
       = Ok (VNumber (number_of_Z (-1))).
Proof.
  apply (decode_encode_canonical sample_runtime 0 DInt
           (VNumber (number_of_Z (-1))) int_hint).
  - reflexivity.
  - exists (-1); split; [unfold int32; lia | reflexivity].
  - right; right; exists (str "int"), None; repeat split; discriminate.
Defined.

(** C1 as stated fails: the encoders accept more shapes than [decode]
    yields.  A number of milliseconds is accepted as a timestamp and comes
    back as a [Date]. *)
Lemma decode_encode_counterexample :
  ~ (forall (rt : runtime) (fuel : nat) (t : dataType) (v : value) (bytes : buffer),
        is_scalar t = true ->
        encode rt fuel v (HCode (code_of t)) = Ok (Some bytes) ->
        decode rt (Some bytes) (descriptor t) = Ok v).
Proof.
  intros H.
  specialize (H sample_runtime 0%nat DTimestamp epoch_ms
                [0; 0; 1; 75; 7; 53; 160; 156] eq_refl).
  assert (Henc : encode sample_runtime 0 epoch_ms (HCode (code_of DTimestamp))
                 = Ok (Some [0; 0; 1; 75; 7; 53; 160; 156]))
    by (vm_compute; reflexivity).
  specialize (H Henc); vm_compute in H; discriminate H.
Qed.

(** * Worked examples of the further properties *)

Lemma unknown_code_not_in_catalog : forall t, code_of t <> unknown_code.
Proof. intros t; destruct t; discriminate. Qed.

Lemma encode_unknown_code_witness :
  encode sample_runtime 0 one (HCode unknown_code) = Throw not_supported.
Proof.
  apply (encode_unknown_code_throws sample_runtime 0 one (HCode unknown_code)
           unknown_code None); [reflexivity | reflexivity |].
  exact unknown_code_not_in_catalog.
Defined.

Lemma decode_unknown_code_witness :
  decode sample_runtime (Some [1]) (Desc unknown_code NoSub) = Throw unknown_type
  /\ decode sample_runtime None (Desc unknown_code NoSub) = Ok VNull.
Proof.
  apply (decode_unknown_code_throws sample_runtime [1] unknown_code NoSub).
  exact unknown_code_not_in_catalog.
Defined.

Lemma encode_guessed_as_hinted_witness :
  encode sample_runtime 0 a_string HAbsent
  = encode sample_runtime 0 a_string (HCode dataTypes.text).
Proof.
  apply (encode_guessed_as_hinted sample_runtime 0 a_string HAbsent dataTypes.text);
    reflexivity.
Defined.

Lemma encode_shape_checked_witness :
  exists msg,
    encode sample_runtime 0 (VString (str "1.1")) (HName (str "float"))
    = Throw (TypeError msg).
Proof.
  apply (encode_shape_checked sample_runtime 0 (VString (str "1.1"))
           (HName (str "float")) DFloat is_number); try reflexivity.
  right; right; exists (str "float"), None.
  split; [reflexivity | split; [discriminate | reflexivity]].
Defined.

(** The bare code of custom is no hint: a number is then guessed to be a
    double and encoded, where a descriptor holding the same code has it
    rejected. *)
Example custom_code_is_no_hint :
  encode sample_runtime 0 one (HCode dataTypes.custom)
  = encode sample_runtime 0 one (HName (str "double"))
  /\ encode sample_runtime 0 one (HInfo (Some dataTypes.custom) None)
     = Throw (TypeError "Not a valid blob, expected Buffer obtained").
Proof. split; reflexivity. Qed.

Lemma encode_boolean_truthiness_witness :
  encode sample_runtime 0 a_string (HName (str "boolean")) = Ok (Some [1])
  /\ decode sample_runtime (Some [1]) (descriptor DBoolean) = Ok (VBool true).
Proof.
  apply (encode_boolean_truthiness sample_runtime 0 a_string (HName (str "boolean"))
           dataTypes.boolean None); reflexivity.
Defined.

Lemma encode_buffer_passthrough_witness :
  encode sample_runtime 0 (VBuffer [1]) (HName (str "bigint")) = Ok (Some [1]).
Proof.
  apply (encode_buffer_passthrough sample_runtime 0 [1] (HName (str "bigint"))
           dataTypes.bigint None DBigint); reflexivity.
Defined.

Lemma encodeList_wire_witness :
  encode sample_runtime 1 (VArray [one; two]) list_of_int
  = Ok (Some [0; 2; 0; 4; 0; 0; 0; 1; 0; 4; 0; 0; 0; 2]).
Proof.
  apply (encodeList_wire sample_runtime 0 [one; two] list_of_int dataTypes.list
           (Some [HCode dataTypes.int]) [[0; 0; 0; 1]; [0; 0; 0; 2]]).
  - reflexivity.
  - reflexivity.
  - unfold len; simpl; lia.
  - repeat constructor; unfold len; simpl; lia.
Defined.

Lemma encodeList_too_many_items_witness :
  encode sample_runtime 0 (VArray many_items) (HCode dataTypes.list)
  = Throw out_of_bounds.
Proof.
  apply (encodeList_too_many_items sample_runtime 0 many_items (HCode dataTypes.list)
           dataTypes.list None); [reflexivity | reflexivity |].
  vm_compute; reflexivity.
Defined.

Lemma decode_encode_list_witness :
  exists bytes,
    encode sample_runtime 1 (VArray [one; two]) list_of_int = Ok (Some bytes)
    /\ decode sample_runtime (Some bytes) int_list = Ok (VArray [one; two]).
Proof.
  apply (decode_encode_list sample_runtime 0 [one; two] list_of_int dataTypes.list
           (Some [HCode dataTypes.int]) dataTypes.int
           [[0; 0; 0; 1]; [0; 0; 0; 2]]).
  - reflexivity.
  - reflexivity.
  - unfold len; simpl; lia.
  - repeat constructor; unfold len; simpl; lia.
Defined.

Lemma decode_nested_collection_witness :
  decode sample_runtime (Some [0; 1; 0; 0])
    (Desc dataTypes.list (ElemSub (Desc dataTypes.list NoSub)))
  = Throw undefined_index.
Proof.
  apply (decode_nested_collection_throws sample_runtime [0; 1; 0; 0] dataTypes.list
           (Desc dataTypes.list NoSub) 1 0); try reflexivity.
Defined.

Lemma empty_list_comes_back_null_witness :
  exists r,
    encode sample_runtime 0 (VArray []) (HCode dataTypes.list) = Ok r
    /\ decode sample_runtime r int_list = Ok VNull
    /\ decode sample_runtime (Some [0; 0]) int_list = Ok (VArray []).
Proof.
  apply (empty_list_comes_back_null sample_runtime 0 (HCode dataTypes.list)
           dataTypes.list None (Desc dataTypes.int NoSub)); reflexivity.
Defined.




(** A map is read into a plain object: an array index among the keys is
    visited before the names, whatever the order on the wire, and the key
    [__proto__] leaves no property. *)
Example decodeMap_plain_object :
  decode sample_runtime (Some [0; 2; 0; 1; 98; 0; 1; 5; 0; 1; 49; 0; 1; 6])
    (Desc dataTypes.map (PairSub (descriptor DText) (descriptor DBlob)))
  = Ok (VObject [(str "1", VBuffer [6]); (str "b", VBuffer [5])])
  /\ decode sample_runtime
       (Some [0; 1; 0; 9; 95; 95; 112; 114; 111; 116; 111; 95; 95; 0; 1; 5])
       text_map
     = Ok (VObject []).
Proof. split; reflexivity. Qed.

(** Subtypes of the wrong shape make [decode] fail when the first item is
    read, not before; subtypes that are missing make it fail at once. *)
Example decode_ill_shaped_subtypes :
  decode sample_runtime (Some [0; 0])
    (Desc dataTypes.list (PairSub (descriptor DInt) (descriptor DInt)))
  = Ok (VArray [])
  /\ decode sample_runtime (Some [0; 1; 0; 1; 5])
       (Desc dataTypes.list (PairSub (descriptor DInt) (descriptor DInt)))
     = Throw unknown_type
  /\ decode sample_runtime (Some [0; 0])
       (Desc dataTypes.map (ElemSub (Desc dataTypes.int (ElemSub (descriptor DInt)))))
     = Ok (VObject [])
  /\ decode sample_runtime (Some [0; 0])
       (Desc dataTypes.map (ElemSub (descriptor DInt)))
     = Throw undefined_index.
Proof. repeat split; reflexivity. Qed.

Lemma setRoutingKey_settles_witness :
  is_single_buffer
    (routingKey (mkOptions None (RKBuffer [0; 1; 1; 0; 0; 1; 2; 0; 0; 2; 3; 3; 0]) None))
  = true
  \/ routingKey (mkOptions None (RKBuffer [0; 1; 1; 0; 0; 1; 2; 0; 0; 2; 3; 3; 0]) None)
     = RKAbsent.
Proof.
  apply (setRoutingKey_settles sample_runtime 0 None
           (mkOptions None (RKArray [Some [1]; Some [2]; Some [3; 3]]) None)
           (mkOptions None (RKBuffer [0; 1; 1; 0; 0; 1; 2; 0; 0; 2; 3; 3; 0]) None)).
  reflexivity.
Defined.

Lemma composite_key_is_filled_witness :
  len [0; 1; 1; 0; 0; 1; 2; 0] = 8.
Proof.
  apply (composite_key_is_filled [Some [1]; Some [2]] 8 [0; 1; 1; 0; 0; 1; 2; 0]);
    reflexivity.
Defined.

Lemma setRoutingKey_composite_unambiguous_witness :
  routingKey (fst (setRoutingKey sample_runtime 0 None
                     (mkOptions None (RKArray [Some [1]; Some [2; 2]]) None)))
  = routingKey (fst (setRoutingKey sample_runtime 1 (Some [one])
                       (mkOptions (Some [int_hint]) (RKArray [Some [1]; Some [2; 2]])
                          (Some [0]))))
  /\ [[1]; [2; 2]] = [[1]; [2; 2]].
Proof.
  assert (Hshort : Forall short_fragment [[1]; [2; 2]])
    by (repeat constructor; unfold short_fragment, len; simpl; lia).
  split; [reflexivity |].
  apply (setRoutingKey_composite_unambiguous sample_runtime 0 1 None (Some [one])
           (mkOptions None (RKArray [Some [1]; Some [2; 2]]) None)
           (mkOptions (Some [int_hint]) (RKArray [Some [1]; Some [2; 2]]) (Some [0]))
           [[1]; [2; 2]] [[1]; [2; 2]]);
    first [reflexivity | exact Hshort | simpl; lia].
Defined.

(** A single fragment is installed as it is, without a frame: an array of
    one fragment and an array of two can leave the same key. *)
Example single_fragment_is_not_framed :
  routingKey (fst (setRoutingKey sample_runtime 0 None
                     (mkOptions None (RKArray [Some [0; 1; 1; 0; 0; 1; 2; 0]]) None)))
  = routingKey (fst (setRoutingKey sample_runtime 0 None
                       (mkOptions None (RKArray [Some [1]; Some [2]]) None))).
Proof. reflexivity. Qed.

Lemma decode_encode_guessed_witness :
  exists bytes,
    encode sample_runtime 0 (VNumber (number_of_Z 1111)) HAbsent = Ok (Some bytes)
    /\ decode sample_runtime (Some bytes) (descriptor DDouble)
       = Ok (VNumber (number_of_Z 1111)).
Proof.
  apply (decode_encode_guessed sample_runtime 0 DDouble (VNumber (number_of_Z 1111))
           HAbsent); try reflexivity.
  exists (number_of_Z 1111); split; reflexivity.
Defined.

Lemma encode_timestamp_forms_agree_witness :
  encode sample_runtime 0 (VDate (number_of_Z 1421755130012)) (HCode dataTypes.timestamp)
  = Ok (Some (Long_toBuffer 1421755130012))
  /\ encode sample_runtime 0 epoch_ms (HCode dataTypes.timestamp)
     = Ok (Some (Long_toBuffer 1421755130012))
  /\ encode sample_runtime 0 (VLong 1421755130012) (HCode dataTypes.timestamp)
     = Ok (Some (Long_toBuffer 1421755130012))
  /\ List.length (Long_toBuffer 1421755130012) = 8%nat
  /\ be_signed (Long_toBuffer 1421755130012) = 1421755130012.
Proof.
  apply (encode_timestamp_forms_agree sample_runtime 0 (HCode dataTypes.timestamp)
           dataTypes.timestamp None 1421755130012); try reflexivity.
  unfold time_value; simpl; lia.
Defined.

Lemma encode_invalid_date_witness :
  encode sample_runtime 0 (VString (str "This is an invalid date string"))
    (HCode dataTypes.timestamp)
  = Throw (TypeError "Invalid date:").
Proof.
  apply (encode_invalid_date_throws sample_runtime 0
           (VString (str "This is an invalid date string"))
           (HCode dataTypes.timestamp) dataTypes.timestamp None);
    [reflexivity | reflexivity |].
  right; eexists; split; reflexivity.
Defined.

Lemma decode_encode_int_normalises_witness :
  exists bytes,
    encode sample_runtime 0 (VString (str "-1")) int_hint = Ok (Some bytes)
    /\ decode sample_runtime (Some bytes) (descriptor DInt)
       = Ok (VNumber (number_of_Z (-1))).
Proof.
  apply (decode_encode_int_normalises sample_runtime 0 (VString (str "-1")) int_hint
           None (-1)); try reflexivity.
  unfold int32; lia.
Defined.

Lemma decode_fixed_width_witness :
  decode sample_runtime (Some [0; 0; 1]) (descriptor DInt) = Throw index_out_of_range
  /\ decode sample_runtime (Some ([0; 0; 0; 1] ++ [9])) (descriptor DInt)
     = decode sample_runtime (Some [0; 0; 0; 1]) (descriptor DInt).
Proof.
  split.
  - apply (proj1 (decode_fixed_width sample_runtime DInt 4 [0; 0; 1] [] eq_refl)).
    unfold len; simpl; lia.
  - apply (proj2 (decode_fixed_width sample_runtime DInt 4 [0; 0; 0; 1] [9] eq_refl)).
    reflexivity.
Defined.

Lemma encodeList_oversized_item_witness :
  encode sample_runtime 1 (VArray ([] ++ VBuffer huge_blob :: [])) (HCode dataTypes.list)
  = Throw out_of_bounds.
Proof.
  apply (encodeList_oversized_item sample_runtime 0 [] [] (VBuffer huge_blob)
           (HCode dataTypes.list) dataTypes.list None [] huge_blob).
  - reflexivity.
  - reflexivity.
  - unfold len; simpl; lia.
  - constructor.
  - reflexivity.
  - vm_compute; reflexivity.
Defined.

Lemma setRoutingKey_index_beyond_params_witness :
  setRoutingKey sample_runtime 0 (Some [one]) index_two_options
  = (index_two_options, Ok tt).
Proof.
  apply (setRoutingKey_index_beyond_params sample_runtime 0 [one] index_two_options 2).
  - reflexivity.
  - reflexivity.
  - discriminate.
  - right; unfold len; simpl; lia.
Defined.

Lemma setRoutingKey_selected_params_witness :
  setRoutingKey sample_runtime 0 (Some [one; a_string]) index_zero_options
  = setRoutingKey sample_runtime 0 (Some [one; unguessable]) index_zero_options.
Proof.
  apply (setRoutingKey_selected_params_only sample_runtime 0 [one; a_string]
           [one; unguessable] index_zero_options); try discriminate.
  intros indexes i [= <-] [<- | []]; reflexivity.
Defined.
